(** * Verification of the chunking core of [scripts/chunk_content.py]

    The development embeds the Python functions [count_tokens],
    [split_text_by_tokens], [chunk_by_paragraphs] and [chunk_document]
    and settles the properties the specification states about them.

    Conventions of the embedding.
    - Python [int] is [Z].
    - Python [str] is [string]; one [ascii] stands for one code point
      below 256.
    - The module-level tokenizer object [ENCODING] is an instance of the
      class [Encoding]; token ids are integers, as tiktoken returns them.
      [encode] is the token sequence of a text the tokenizer accepts:
      tiktoken refuses a text that holds one of its special tokens with
      a [ValueError], raised before any loop of the chunker runs.  What
      is stated of a returned value is stated of accepted texts.
    - A [while] loop is a function with fuel returning [option]; [None]
      means the loop has not finished within the fuel.  None of the
      embedded functions contains a [raise] statement.
    - The caller's document dictionary is the store of a small state
      monad; [chunk_document] is written against it with explicit reads. *)

From Stdlib Require Import ZArith List String Ascii Bool Lia Arith.
From Stdlib Require Import DecimalString DecimalZ DecimalPos FinFun.
Import ListNotations.

Local Open Scope string_scope.
Local Open Scope list_scope.
Local Open Scope Z_scope.

(** ** Python string primitives *)

Module PyStr.

(** [str.isspace] on one code point below 256: TAB, LF, VT, FF, CR,
    FS, GS, RS, US, SPACE, NEL and NBSP. *)
Definition is_space (c : ascii) : bool :=
  let n := nat_of_ascii c in
  ((9 <=? n)%nat && (n <=? 13)%nat)
  || ((28 <=? n)%nat && (n <=? 32)%nat)
  || (n =? 133)%nat || (n =? 160)%nat.

Definition is_empty (s : string) : bool :=
  match s with EmptyString => true | String _ _ => false end.

(** Truth value of a string: non-empty. *)
Definition truthy (s : string) : bool := negb (is_empty s).

Fixpoint lstrip (s : string) : string :=
  match s with
  | EmptyString => EmptyString
  | String c s' => if is_space c then lstrip s' else s
  end.

Fixpoint rstrip (s : string) : string :=
  match s with
  | EmptyString => EmptyString
  | String c s' =>
      let r := rstrip s' in
      if is_space c && is_empty r then EmptyString else String c r
  end.

(** [s.strip()] *)
Definition strip (s : string) : string := rstrip (lstrip s).

(** [s.split(sep)] for a non-empty separator: scan from the left, cut at
    every non-overlapping occurrence of [sep].  [skip] counts the
    characters of a matched separator still to be dropped, [cur] is the
    piece being collected. *)
Fixpoint split_go (sep : string) (skip : nat) (cur : string) (s : string)
  : list string :=
  match s with
  | EmptyString => [cur]
  | String c s' =>
      match skip with
      | S k => split_go sep k cur s'
      | O =>
          if String.prefix sep s
          then cur :: split_go sep (Nat.pred (String.length sep)) EmptyString s'
          else split_go sep O (cur ++ String c EmptyString)%string s'
      end
  end.

Definition split (sep s : string) : list string :=
  split_go sep O EmptyString s.

(** [sep.join(parts)] *)
Fixpoint join (sep : string) (parts : list string) : string :=
  match parts with
  | [] => EmptyString
  | [p] => p
  | p :: rest => (p ++ sep ++ join sep rest)%string
  end.

(** [str(n)] for an integer. *)
Definition of_int (n : Z) : string :=
  NilZero.string_of_int (Z.to_int n).

(** [s * n] *)
Fixpoint repeat_str (s : string) (n : nat) : string :=
  match n with
  | O => EmptyString
  | S k => (s ++ repeat_str s k)%string
  end.

(** Every character of [s] is whitespace. *)
Fixpoint all_space (s : string) : bool :=
  match s with
  | EmptyString => true
  | String c s' => is_space c && all_space s'
  end.

End PyStr.

(** The paragraph separator and the characters the code uses. *)
Definition NL : string := String (ascii_of_nat 10) EmptyString.
Definition NLNL : string := (NL ++ NL)%string.

(** ** Python list slicing *)

(** Normalisation of one slice bound: a negative bound counts from the
    end, then the bound is clamped to [0, len]. *)
Definition slice_bound (len i : Z) : Z :=
  let j := if i <? 0 then i + len else i in
  Z.max 0 (Z.min len j).

(** [l[start:stop]] *)
Definition py_slice {A : Type} (l : list A) (start stop : Z) : list A :=
  let len := Z.of_nat (List.length l) in
  let s := slice_bound len start in
  let e := slice_bound len stop in
  firstn (Z.to_nat (e - s)) (skipn (Z.to_nat s) l).

(** ** Configuration constants *)

Definition TARGET_CHUNK_SIZE : Z := 750.
Definition MAX_CHUNK_SIZE : Z := 1000.
Definition MIN_CHUNK_SIZE : Z := 100.
Definition OVERLAP_SIZE : Z := 50.

(** ** The tokenizer capability *)

Class Encoding := {
  encode : string -> list Z;
  decode : list Z -> string
}.

(** A stub tokenizer for concrete runs: one token per character, the
    token id being the character code. *)
Definition char_encode (s : string) : list Z :=
  map (fun c => Z.of_nat (nat_of_ascii c)) (list_ascii_of_string s).
Definition char_decode (ts : list Z) : string :=
  string_of_list_ascii (map (fun t => ascii_of_nat (Z.to_nat t)) ts).
Definition char_encoding : Encoding :=
  {| encode := char_encode; decode := char_decode |}.

(** ** Records *)

Record Document := mkDocument {
  doc_id : string;
  doc_title : string;
  doc_category : string;
  doc_tags : list string;
  doc_content : string;
  doc_source : option string;
  doc_url : option string;
  doc_difficulty : option string
}.

Record Metadata := mkMetadata {
  md_document_id : string;
  md_title : string;
  md_category : string;
  md_source : string;
  md_url : string;
  md_tags : list string;
  md_difficulty : string;
  md_chunk_index : Z;
  md_total_chunks : Z
}.

Record Chunk := mkChunk {
  chunk_id : string;
  content : string;
  token_count : Z;
  chunk_index : Z;
  metadata : Metadata
}.

(** ** A state monad over the caller's document *)

Module DocState.

Definition M (A : Type) : Type := Document -> A * Document.

Definition ret {A} (a : A) : M A := fun d => (a, d).
Definition bind {A B} (m : M A) (k : A -> M B) : M B :=
  fun d => let '(a, d') := m d in k a d'.

(** [doc_data[key]] for a required key. *)
Definition getitem {A} (field : Document -> A) : M A :=
  fun d => (field d, d).

(** [doc_data.get(key, default)] for an optional key. *)
Definition get_default {A} (field : Document -> option A) (dflt : A) : M A :=
  fun d => (match field d with Some v => v | None => dflt end, d).

(** A [for] loop that builds a list by [append]. *)
Fixpoint for_each {A B} (f : A -> M B) (l : list A) : M (list B) :=
  match l with
  | [] => ret []
  | a :: l' => bind (f a) (fun b => bind (for_each f l') (fun bs => ret (b :: bs)))
  end.

End DocState.

Notation "x <- m ;; k" := (DocState.bind m (fun x => k))
  (at level 61, m at next level, right associativity).

(** [enumerate(l)] *)
Definition enumerate {A : Type} (l : list A) : list (Z * A) :=
  combine (map Z.of_nat (seq 0 (List.length l))) l.

Section Chunker.

Context {ENCODING : Encoding}.

(** [count_tokens] *)
Definition count_tokens (text : string) : Z :=
  Z.of_nat (List.length (encode text)).

(** *** [split_text_by_tokens] *)

(** The [while] loop of [split_text_by_tokens], over the token windows
    it cuts (before decoding). *)
Fixpoint window_loop (fuel : nat) (tokens : list Z) (max_tokens overlap : Z)
  (start : Z) (windows : list (list Z)) : option (list (list Z)) :=
  match fuel with
  | O => None
  | S fuel' =>
      if start <? Z.of_nat (List.length tokens) then
        let end_ := start + max_tokens in
        let chunk_tokens := py_slice tokens start end_ in
        let windows' := windows ++ [chunk_tokens] in
        let start' := end_ - overlap in
        if end_ >=? Z.of_nat (List.length tokens) then Some windows'
        else window_loop fuel' tokens max_tokens overlap start' windows'
      else Some windows
  end.

(** The loop as the source writes it: each window is decoded and
    appended to [chunks]. *)
Fixpoint split_loop (fuel : nat) (tokens : list Z) (max_tokens overlap : Z)
  (start : Z) (chunks : list string) : option (list string) :=
  match fuel with
  | O => None
  | S fuel' =>
      if start <? Z.of_nat (List.length tokens) then
        let end_ := start + max_tokens in
        let chunk_tokens := py_slice tokens start end_ in
        let chunk_text := decode chunk_tokens in
        let chunks' := chunks ++ [chunk_text] in
        let start' := end_ - overlap in
        if end_ >=? Z.of_nat (List.length tokens) then Some chunks'
        else split_loop fuel' tokens max_tokens overlap start' chunks'
      else Some chunks
  end.

Definition split_text_by_tokens_fuel (fuel : nat) (text : string)
  (max_tokens overlap : Z) : option (list string) :=
  split_loop fuel (encode text) max_tokens overlap 0 [].

(** One more iteration than there are tokens is all the loop can use
    when it terminates at all (see [split_loop_fuel_enough] and
    [split_loop_diverges]). *)
Definition split_text_by_tokens (text : string) (max_tokens overlap : Z)
  : option (list string) :=
  split_text_by_tokens_fuel (S (List.length (encode text))) text max_tokens overlap.

Definition token_windows (tokens : list Z) (max_tokens overlap : Z)
  : option (list (list Z)) :=
  window_loop (S (List.length tokens)) tokens max_tokens overlap 0 [].

(** *** [chunk_by_paragraphs] *)

Definition nonempty {A} (l : list A) : bool :=
  match l with [] => false | _ => true end.

(** [[p.strip() for p in text.split(sep) if p.strip()]] *)
Definition stripped_pieces (sep text : string) : list string :=
  map PyStr.strip
      (filter (fun p => PyStr.truthy (PyStr.strip p)) (PyStr.split sep text)).

Definition paragraphs (text : string) : list string :=
  stripped_pieces NLNL text.

(** [[s.strip() + '.' for s in paragraph.split('.') if s.strip()]] *)
Definition sentences (paragraph : string) : list string :=
  map (fun s => (s ++ ".")%string) (stripped_pieces "." paragraph).

(** State of the sentence loop: [(chunks, temp_chunk, temp_tokens)]. *)
Definition sentence_step (st : list string * list string * Z)
  (sentence : string) : list string * list string * Z :=
  let '(chunks, temp_chunk, temp_tokens) := st in
  let sent_tokens := count_tokens sentence in
  if temp_tokens + sent_tokens >? MAX_CHUNK_SIZE then
    ((if nonempty temp_chunk
      then chunks ++ [PyStr.join " " temp_chunk] else chunks),
     [sentence], sent_tokens)
  else (chunks, temp_chunk ++ [sentence], temp_tokens + sent_tokens).

(** The branch taken for a paragraph over [MAX_CHUNK_SIZE]; returns the
    new [chunks]. *)
Definition split_large_paragraph (chunks : list string) (paragraph : string)
  : list string :=
  let '(chunks', temp_chunk, _) :=
    fold_left sentence_step (sentences paragraph) (chunks, [], 0) in
  if nonempty temp_chunk
  then chunks' ++ [PyStr.join " " temp_chunk] else chunks'.

(** State of the paragraph loop: [(chunks, current_chunk, current_tokens)]. *)
Definition paragraph_step (target_size : Z)
  (st : list string * list string * Z) (paragraph : string)
  : list string * list string * Z :=
  let '(chunks, current_chunk, current_tokens) := st in
  let para_tokens := count_tokens paragraph in
  if para_tokens >? MAX_CHUNK_SIZE then
    let '(chunks1, current_chunk1, current_tokens1) :=
      if nonempty current_chunk
      then (chunks ++ [PyStr.join NLNL current_chunk], [], 0)
      else (chunks, current_chunk, current_tokens) in
    (split_large_paragraph chunks1 paragraph, current_chunk1, current_tokens1)
  else if (current_tokens + para_tokens >? target_size) && nonempty current_chunk
  then (chunks ++ [PyStr.join NLNL current_chunk], [paragraph], para_tokens)
  else (chunks, current_chunk ++ [paragraph], current_tokens + para_tokens).

Definition chunk_by_paragraphs (text : string) (target_size : Z)
  : list string :=
  let '(chunks, current_chunk, _) :=
    fold_left (paragraph_step target_size) (paragraphs text) ([], [], 0) in
  if nonempty current_chunk
  then chunks ++ [PyStr.join NLNL current_chunk] else chunks.

(** *** [chunk_document] *)

(** The loop over [text_chunks]: re-measure each unit, slice the ones
    still over [MAX_CHUNK_SIZE]. *)
Fixpoint assemble (text_chunks : list string) (final_chunks : list string)
  : option (list string) :=
  match text_chunks with
  | [] => Some final_chunks
  | chunk_text :: rest =>
      let token_count := count_tokens chunk_text in
      if token_count >? MAX_CHUNK_SIZE then
        match split_text_by_tokens chunk_text TARGET_CHUNK_SIZE OVERLAP_SIZE with
        | None => None
        | Some sub_chunks => assemble rest (final_chunks ++ sub_chunks)
        end
      else assemble rest (final_chunks ++ [chunk_text])
  end.

(** The body of the loop that creates the [Chunk] objects. *)
Definition build_chunk (id : string) (total : Z) (entry : Z * string)
  : DocState.M Chunk :=
  let '(idx, chunk_text) := entry in
  title <- DocState.getitem doc_title ;;
  category <- DocState.getitem doc_category ;;
  source <- DocState.get_default doc_source "" ;;
  url <- DocState.get_default doc_url "" ;;
  tags <- DocState.getitem doc_tags ;;
  difficulty <- DocState.get_default doc_difficulty "" ;;
  DocState.ret
    {| chunk_id := (id ++ "_chunk_" ++ PyStr.of_int idx)%string;
       content := chunk_text;
       token_count := count_tokens chunk_text;
       chunk_index := idx;
       metadata :=
         {| md_document_id := id;
            md_title := title;
            md_category := category;
            md_source := source;
            md_url := url;
            md_tags := tags;
            md_difficulty := difficulty;
            md_chunk_index := idx;
            md_total_chunks := total |} |}.

(** [chunk_document] against the caller's dictionary. *)
Definition chunk_document_st : DocState.M (option (list Chunk)) :=
  text <- DocState.getitem doc_content ;;
  id <- DocState.getitem doc_id ;;
  let text_chunks := chunk_by_paragraphs text TARGET_CHUNK_SIZE in
  match assemble text_chunks [] with
  | None => DocState.ret None
  | Some final_chunks =>
      chunks <- DocState.for_each
                  (build_chunk id (Z.of_nat (List.length final_chunks)))
                  (enumerate final_chunks) ;;
      DocState.ret (Some chunks)
  end.

(** The value [chunk_document] returns. *)
Definition chunk_document (doc_data : Document) : option (list Chunk) :=
  fst (chunk_document_st doc_data).

(** *** Auxiliary definitions for the statements *)

(** The [Chunk] object built for position [idx] of a document whose
    final sequence has [total] texts. *)
Definition chunk_record (d : Document) (total : Z) (entry : Z * string)
  : Chunk :=
  {| chunk_id := (doc_id d ++ "_chunk_" ++ PyStr.of_int (fst entry))%string;
     content := snd entry;
     token_count := count_tokens (snd entry);
     chunk_index := fst entry;
     metadata :=
       {| md_document_id := doc_id d;
          md_title := doc_title d;
          md_category := doc_category d;
          md_source := match doc_source d with Some v => v | None => "" end;
          md_url := match doc_url d with Some v => v | None => "" end;
          md_tags := doc_tags d;
          md_difficulty :=
            match doc_difficulty d with Some v => v | None => "" end;
          md_chunk_index := fst entry;
          md_total_chunks := total |} |}.

(** The [chunks] list built from [final_chunks]. *)
Definition chunk_records (d : Document) (final_chunks : list string)
  : list Chunk :=
  map (chunk_record d (Z.of_nat (List.length final_chunks)))
      (enumerate final_chunks).

(** [sum(count_tokens(p) for p in ps)] *)
Definition total_tokens (ps : list string) : Z :=
  fold_right (fun p acc => count_tokens p + acc) 0 ps.

(** The packing rule in the words of the specification (section 4.2,
    steps 4 and 5): [group] is the current group, [total] its running
    token total. *)
Fixpoint spec_greedy_groups (target_size : Z) (group : list string)
  (total : Z) (ps : list string) : list (list string) :=
  match ps with
  | [] => if nonempty group then [group] else []
  | p :: rest =>
      if (total + count_tokens p >? target_size) && nonempty group
      then group :: spec_greedy_groups target_size [p] (count_tokens p) rest
      else spec_greedy_groups target_size (group ++ [p])
                              (total + count_tokens p) rest
  end.

Definition spec_pack_paragraphs (target_size : Z) (ps : list string)
  : list string :=
  map (PyStr.join NLNL) (spec_greedy_groups target_size [] 0 ps).

(** What one unit of [text_chunks] contributes to [final_chunks]. *)
Inductive unit_pieces (u : string) : list string -> Prop :=
| pieces_kept :
    count_tokens u <= MAX_CHUNK_SIZE ->
    unit_pieces u [u]
| pieces_sliced (ws : list (list Z)) :
    MAX_CHUNK_SIZE < count_tokens u ->
    token_windows (encode u) TARGET_CHUNK_SIZE OVERLAP_SIZE = Some ws ->
    (2 <= List.length ws)%nat ->
    Forall (fun w => 0 < Z.of_nat (List.length w) <= TARGET_CHUNK_SIZE) ws ->
    unit_pieces u (map decode ws).

End Chunker.

(** The windows of [tokens] cut from offset [s] on: every window is the
    slice [tokens[s : s + m]], the next one starts [m - o] further, and
    the last one is the first whose end reaches the end of [tokens]. *)
Inductive windows_from (tokens : list Z) (m o : Z)
  : Z -> list (list Z) -> Prop :=
| windows_last (s : Z) :
    0 <= s < Z.of_nat (List.length tokens) ->
    Z.of_nat (List.length tokens) <= s + m ->
    windows_from tokens m o s [py_slice tokens s (s + m)]
| windows_more (s : Z) (ws : list (list Z)) :
    0 <= s ->
    s + m < Z.of_nat (List.length tokens) ->
    windows_from tokens m o (s + m - o) ws ->
    windows_from tokens m o s (py_slice tokens s (s + m) :: ws).

(** [sep in s] *)
Fixpoint contains (sep s : string) : bool :=
  match s with
  | EmptyString => String.prefix sep EmptyString
  | String _ s' => String.prefix sep s || contains sep s'
  end.

(** ** Sample documents *)

Definition sample_doc (text : string) : Document :=
  {| doc_id := "doc"; doc_title := "Title"; doc_category := "basics";
     doc_tags := ["design"]; doc_content := text;
     doc_source := Some "notes"; doc_url := None; doc_difficulty := None |}.

(** Two paragraphs of 400 characters each. *)
Definition two_paragraphs : string :=
  (PyStr.repeat_str "a" 400 ++ NLNL ++ PyStr.repeat_str "b" 400)%string.


(** A paragraph of 1400 characters without sentence terminator. *)
Definition long_paragraph : string := PyStr.repeat_str "a" 1400.

(** Two short paragraphs, already trimmed. *)
Definition hello_world : string := ("hello" ++ NLNL ++ "world")%string.

(** Whitespace only. *)
Definition blank_text : string := ("  " ++ NL ++ " ")%string.

(** [c in s] for a character. *)
Fixpoint mem_char (c : ascii) (s : string) : bool :=
  match s with
  | EmptyString => false
  | String x s' => (if ascii_dec x c then true else false) || mem_char c s'
  end.

(** ** The packing seen paragraph by paragraph *)

(** What the packer makes of the paragraphs: a group of paragraphs
    packed into one unit, or a paragraph over [MAX_CHUNK_SIZE] handed
    to the sentence fallback. *)
Inductive PackedItem :=
| PackedGroup (group : list string)
| OversizedParagraph (paragraph : string).

(** The paragraphs an item holds, in order. *)
Definition item_paragraphs (it : PackedItem) : list string :=
  match it with
  | PackedGroup group => group
  | OversizedParagraph paragraph => [paragraph]
  end.

Section PackingModel.

Context {ENCODING : Encoding}.

(** The paragraph loop of [chunk_by_paragraphs] and its final flush,
    on a list of paragraphs. *)
Definition units_of_paragraphs (target_size : Z) (ps : list string)
  : list string :=
  let '(chunks, current_chunk, _) :=
    fold_left (paragraph_step target_size) ps ([], [], 0) in
  if nonempty current_chunk
  then chunks ++ [PyStr.join NLNL current_chunk] else chunks.


(** The packing rule in the words of the specification (section 4.2,
    steps 3 to 5) over all paragraphs: a paragraph over [MAX_CHUNK_SIZE]
    is not packed but decomposed on its own, in its place in the
    document, so the group open before it is closed; a paragraph within
    [MAX_CHUNK_SIZE] closes the current group when adding it would push
    the running total above [target_size] and the group is non-empty,
    and otherwise joins the group; a non-empty trailing group is
    flushed. *)
Fixpoint spec_pack (target_size : Z) (group : list string) (total : Z)
  (ps : list string) : list PackedItem :=
  match ps with
  | [] => if nonempty group then [PackedGroup group] else []
  | p :: rest =>
      if count_tokens p >? MAX_CHUNK_SIZE then
        (if nonempty group then [PackedGroup group] else [])
        ++ OversizedParagraph p :: spec_pack target_size [] 0 rest
      else if (total + count_tokens p >? target_size) && nonempty group
      then PackedGroup group
           :: spec_pack target_size [p] (count_tokens p) rest
      else spec_pack target_size (group ++ [p]) (total + count_tokens p) rest
  end.

(** The units an item becomes: a group is joined by blank lines, an
    oversized paragraph goes through the sentence fallback. *)
Definition item_units (it : PackedItem) : list string :=
  match it with
  | PackedGroup group => [PyStr.join NLNL group]
  | OversizedParagraph paragraph => split_large_paragraph [] paragraph
  end.

End PackingModel.

(** A paragraph of 300 short sentences, and a document holding it
    between two short paragraphs. *)
Definition sentence_block : string := PyStr.repeat_str "abc. " 300.
Definition mixed_content : string :=
  ("intro" ++ NLNL ++ sentence_block ++ NLNL ++ "outro")%string.

(** One paragraph of 900 characters. *)
Definition one_long_paragraph : string := PyStr.repeat_str "a" 900.

(** ** The batch driver [process_all_documents] *)

(** What the [try] block of one file comes to before any total is
    touched: reading and parsing the file, or chunking it, raises (the
    [except] branch only prints), or the document is loaded. *)
Inductive FileOutcome :=
| FileRaises
| FileLoaded (doc_data : Document).

(** What the run leaves behind: [chunks.json], the fields of
    [index.json] computed from the totals, and the returned triple. *)
Record ProcessOutput := mkProcessOutput {
  all_chunks_data : list Chunk;
  index_total_documents : Z;
  index_total_chunks : Z;
  index_total_tokens : Z;
  index_avg_tokens_per_chunk : Z;
  returned : Z * Z * Z
}.

(** [exit(1)] or a completed run. *)
Inductive ProcessResult :=
| Exit1
| Completed (out : ProcessOutput).

(** [sum(c.token_count for c in chunks)] *)
Definition sum_token_counts (chunks : list Chunk) : Z :=
  fold_left (fun acc c => acc + token_count c) chunks 0.

Section Driver.

Context {ENCODING : Encoding}.

(** One iteration of the loop over [files]; the state is
    [(all_chunks_data, total_chunks, total_tokens)], [None] when a
    call of [chunk_document] has not returned. *)
Definition process_file (st : option (list Chunk * Z * Z)) (f : FileOutcome)
  : option (list Chunk * Z * Z) :=
  match st with
  | None => None
  | Some (all, total_chunks, total_tokens) =>
      match f with
      | FileRaises => Some (all, total_chunks, total_tokens)
      | FileLoaded doc_data =>
          match chunk_document doc_data with
          | None => None
          | Some chunks =>
              let chunk_tokens := sum_token_counts chunks in
              Some (all ++ chunks,
                    total_chunks + Z.of_nat (List.length chunks),
                    total_tokens + chunk_tokens)
          end
      end
  end.

(** [process_all_documents]; the argument is [None] when the raw data
    directory does not exist, else the outcome of each file in the
    order of the directory listing. *)
Definition process_all_documents (dir : option (list FileOutcome))
  : option ProcessResult :=
  match dir with
  | None => Some Exit1
  | Some files =>
      if nonempty files then
        match fold_left process_file files (Some ([], 0, 0)) with
        | None => None
        | Some (all, total_chunks, total_tokens) =>
            let avg := if total_chunks >? 0
                       then total_tokens / total_chunks else 0 in
            Some (Completed
              {| all_chunks_data := all;
                 index_total_documents := Z.of_nat (List.length files);
                 index_total_chunks := total_chunks;
                 index_total_tokens := total_tokens;
                 index_avg_tokens_per_chunk := avg;
                 returned := (Z.of_nat (List.length files),
                              total_chunks, total_tokens) |})
        end
      else Some Exit1
  end.

(** The chunks a file contributes. *)
Definition file_chunks (f : FileOutcome) : list Chunk :=
  match f with
  | FileRaises => []
  | FileLoaded d =>
      match chunk_document d with Some cs => cs | None => [] end
  end.

End Driver.

(** The ids of the documents that were loaded. *)
Definition loaded_ids (files : list FileOutcome) : list string :=
  flat_map (fun f => match f with
                     | FileRaises => []
                     | FileLoaded d => [doc_id d]
                     end) files.

(** ** The consumers of the chunk records *)

(** [range(start, stop, step)] for a positive step: as many elements
    as CPython computes, the [k]-th being [start + k * step]. *)
Definition py_range (start stop step : Z) : list Z :=
  let n := if start <? stop then (stop - start - 1) / step + 1 else 0 in
  map (fun k => start + Z.of_nat k * step) (seq 0 (Z.to_nat n)).

(** [BATCH_SIZE] of [generate_embeddings.py] and of
    [upload_to_pinecone.py]. *)
Definition BATCH_SIZE : Z := 100.

(** The batches both scripts cut:
    [[l[i:i + BATCH_SIZE] for i in range(0, len(l), BATCH_SIZE)]]. *)
Definition batches {A : Type} (l : list A) : list (list A) :=
  map (fun i => py_slice l i (i + BATCH_SIZE))
      (py_range 0 (Z.of_nat (List.length l)) BATCH_SIZE).

(** [s[:n]] on a string. *)
Definition str_prefix (n : Z) (s : string) : string :=
  string_of_list_ascii (py_slice (list_ascii_of_string s) 0 n).

Definition MAX_RETRIES : Z := 3.

Section Consumers.

(** The embedding vectors are only carried around. *)
Variable Vec : Type.

(** An entry of [embeddings.json]. *)
Record EmbeddingRecord := mkEmbeddingRecord {
  er_chunk_id : string;
  er_embedding : Vec;
  er_content : string;
  er_token_count : Z;
  er_metadata : Metadata
}.

(** *** [generate_embeddings_batch] *)

(** Outcome of a call of the embeddings API: [None] when it raises. *)
Variable api_call : nat -> option (list Vec).

Inductive BatchOutcome :=
| BatchReturns (embeddings : list Vec) (calls : nat)
| BatchRaises (calls : nat).

(** [generate_embeddings_batch(texts, retry_count)] when [calls] calls
    of the API have been made before; the result carries the number of
    calls made so far.  [None]: out of fuel. *)
Fixpoint generate_embeddings_batch (fuel : nat) (retry_count : Z)
  (calls : nat) : option BatchOutcome :=
  match fuel with
  | O => None
  | S fuel' =>
      match api_call calls with
      | Some embeddings => Some (BatchReturns embeddings (S calls))
      | None =>
          if retry_count <? MAX_RETRIES
          then generate_embeddings_batch fuel' (retry_count + 1) (S calls)
          else Some (BatchRaises (S calls))
      end
  end.

(** *** [process_chunks] *)

(** What [generate_embeddings_batch(texts)] comes to for the batch at
    offset [i]: [None] when it raises. *)
Variable generate : Z -> list string -> option (list Vec).

(** The loop over [zip(batch, embeddings)]. *)
Definition combine_step (st : list EmbeddingRecord * Z) (pair : Chunk * Vec)
  : list EmbeddingRecord * Z :=
  let '(embeddings_data, total_tokens) := st in
  let '(chunk, embedding) := pair in
  (embeddings_data ++
     [{| er_chunk_id := chunk_id chunk;
         er_embedding := embedding;
         er_content := content chunk;
         er_token_count := token_count chunk;
         er_metadata := metadata chunk |}],
   total_tokens + token_count chunk).

(** One iteration of the loop over the batch offsets; [None] when the
    batch raised (the exception is raised again). *)
Definition embed_batch (chunks : list Chunk)
  (st : option (list EmbeddingRecord * Z)) (i : Z)
  : option (list EmbeddingRecord * Z) :=
  match st with
  | None => None
  | Some acc =>
      let batch := py_slice chunks i (i + BATCH_SIZE) in
      let texts := map content batch in
      match generate i texts with
      | None => None
      | Some embeddings => Some (fold_left combine_step (combine batch embeddings) acc)
      end
  end.

(** [process_chunks] up to the saving: [(embeddings_data, total_tokens)]. *)
Definition process_chunks (chunks : list Chunk)
  : option (list EmbeddingRecord * Z) :=
  fold_left (embed_batch chunks)
            (py_range 0 (Z.of_nat (List.length chunks)) BATCH_SIZE)
            (Some ([], 0)).

(** *** [prepare_vectors] *)

Record VectorMetadata := mkVectorMetadata {
  vm_content : string;
  vm_title : string;
  vm_category : string;
  vm_document_id : string;
  vm_chunk_index : Z;
  vm_total_chunks : Z;
  vm_token_count : Z;
  vm_source : string;
  vm_difficulty : string;
  vm_tags : string
}.

Definition prepare_vector (item : EmbeddingRecord)
  : string * Vec * VectorMetadata :=
  let vector_id := er_chunk_id item in
  let vector := er_embedding item in
  let md :=
    {| vm_content := str_prefix 1000 (er_content item);
       vm_title := md_title (er_metadata item);
       vm_category := md_category (er_metadata item);
       vm_document_id := md_document_id (er_metadata item);
       vm_chunk_index := md_chunk_index (er_metadata item);
       vm_total_chunks := md_total_chunks (er_metadata item);
       vm_token_count := er_token_count item;
       vm_source := md_source (er_metadata item);
       vm_difficulty := md_difficulty (er_metadata item);
       vm_tags := str_prefix 500 (PyStr.join "," (md_tags (er_metadata item))) |} in
  (vector_id, vector, md).

Definition prepare_vectors (embeddings_data : list EmbeddingRecord)
  : list (string * Vec * VectorMetadata) :=
  map prepare_vector embeddings_data.

(** *** [upload_vectors] *)

(** [index.upsert(vectors=batch)] for the batch at offset [i]: [false]
    when it raises. *)
Variable upsert : Z -> list (string * Vec * VectorMetadata) -> bool.

(** One iteration; [None] when the upsert raised. *)
Definition upload_batch (vectors : list (string * Vec * VectorMetadata))
  (st : option Z) (i : Z) : option Z :=
  match st with
  | None => None
  | Some total_uploaded =>
      let batch := py_slice vectors i (i + BATCH_SIZE) in
      if upsert i batch
      then Some (total_uploaded + Z.of_nat (List.length batch))
      else None
  end.

Definition upload_vectors (vectors : list (string * Vec * VectorMetadata))
  : option Z :=
  fold_left (upload_batch vectors)
            (py_range 0 (Z.of_nat (List.length vectors)) BATCH_SIZE)
            (Some 0).

End Consumers.

(** ** Sample inputs for the driver and the consumers *)

Definition other_doc : Document :=
  {| doc_id := "doc2"; doc_title := "Other"; doc_category := "caching";
     doc_tags := ["cache"; "ttl"]; doc_content := "hello";
     doc_source := None; doc_url := None; doc_difficulty := Some "beginner" |}.

(** Three files: the second one cannot be read. *)
Definition sample_files : list FileOutcome :=
  [FileLoaded (sample_doc hello_world); FileRaises; FileLoaded other_doc].

(** An API that returns the zero vector of dimension 1 for every text. *)
Definition stub_generate (i : Z) (texts : list string) : option (list nat) :=
  Some (map (fun _ => O) texts).

(** An API whose first two calls fail. *)
Definition flaky_api (n : nat) : option (list nat) :=
  if (n <? 2)%nat then None else Some [O].

Definition sample_records : list (EmbeddingRecord nat) :=
  [mkEmbeddingRecord nat "doc_chunk_0" O "hello" 5
     (mkMetadata "doc" "Title" "basics" "notes" "" ["design"] "" 0 1)].

(** * Facts about the embedding *)

(** ** Slices *)

Lemma py_slice_nonneg {A : Type} (l : list A) (s e : Z) :
  0 <= s -> s <= e ->
  py_slice l s e = firstn (Z.to_nat (e - s)) (skipn (Z.to_nat s) l).
Proof.
  intros Hs He. unfold py_slice, slice_bound.
  assert (Hs0 : (s <? 0) = false) by (apply Z.ltb_ge; lia).
  assert (He0 : (e <? 0) = false) by (apply Z.ltb_ge; lia).
  rewrite Hs0, He0.
  set (len := Z.of_nat (List.length l)).
  assert (Hlen : len = Z.of_nat (List.length l)) by reflexivity.
  destruct (Z.le_gt_cases e len) as [Hel | Hel].
  - replace (Z.max 0 (Z.min len e)) with e by lia.
    replace (Z.max 0 (Z.min len s)) with s by lia.
    reflexivity.
  - destruct (Z.le_gt_cases s len) as [Hsl | Hsl].
    + replace (Z.max 0 (Z.min len e)) with len by lia.
      replace (Z.max 0 (Z.min len s)) with s by lia.
      rewrite !firstn_all2; try reflexivity; rewrite length_skipn; lia.
    + replace (Z.max 0 (Z.min len e)) with len by lia.
      replace (Z.max 0 (Z.min len s)) with len by lia.
      rewrite (skipn_all2 (n := Z.to_nat s)) by lia.
      rewrite (skipn_all2 (n := Z.to_nat len)) by lia.
      now rewrite !firstn_nil.
Qed.

Lemma py_slice_window {A : Type} (l : list A) (s m : Z) :
  0 <= s -> 0 <= m ->
  py_slice l s (s + m) = firstn (Z.to_nat m) (skipn (Z.to_nat s) l).
Proof.
  intros Hs Hm. rewrite py_slice_nonneg by lia.
  now replace (s + m - s) with m by lia.
Qed.

Lemma py_slice_window_length {A : Type} (l : list A) (s m : Z) :
  0 <= s <= Z.of_nat (List.length l) -> 0 <= m ->
  Z.of_nat (List.length (py_slice l s (s + m)))
  = Z.min m (Z.of_nat (List.length l) - s).
Proof.
  intros Hs Hm. rewrite py_slice_window by lia.
  rewrite length_firstn, length_skipn. lia.
Qed.

(** A window that reaches the end of the list is a suffix of it. *)
Lemma py_slice_suffix {A : Type} (l : list A) (s m : Z) :
  0 <= s -> Z.of_nat (List.length l) <= s + m ->
  s <= Z.of_nat (List.length l) ->
  py_slice l s (s + m) = skipn (Z.to_nat s) l.
Proof.
  intros Hs He Hl. rewrite py_slice_window by lia.
  apply firstn_all2. rewrite length_skipn. lia.
Qed.

(** ** The token-window loop *)

(** The source's loop is the loop over token windows, decoded. *)
Lemma split_loop_windows `{Encoding} (tokens : list Z) (m o : Z) :
  forall fuel s ws,
    split_loop fuel tokens m o s (map decode ws)
    = option_map (map decode) (window_loop fuel tokens m o s ws).
Proof.
  induction fuel as [|fuel IH]; intros s ws; simpl; [reflexivity|].
  destruct (s <? Z.of_nat (List.length tokens)); [|reflexivity].
  replace (map decode ws ++ [decode (py_slice tokens s (s + m))])
    with (map decode (ws ++ [py_slice tokens s (s + m)]))
    by (now rewrite map_app).
  destruct (s + m >=? Z.of_nat (List.length tokens)); [reflexivity|].
  apply IH.
Qed.

Lemma split_text_by_tokens_windows `{Encoding} (text : string) (m o : Z) :
  split_text_by_tokens text m o
  = option_map (map decode) (token_windows (encode text) m o).
Proof.
  unfold split_text_by_tokens, split_text_by_tokens_fuel, token_windows.
  apply (split_loop_windows (encode text) m o _ 0 []).
Qed.

(** With [0 <= o < m] the loop started inside the token list finishes
    within [len - s] iterations and cuts the windows from [s] on. *)
Lemma window_loop_from (tokens : list Z) (m o : Z) :
  0 <= o < m ->
  forall fuel s acc,
    0 <= s < Z.of_nat (List.length tokens) ->
    Z.of_nat (List.length tokens) - s <= Z.of_nat fuel ->
    exists ws,
      window_loop fuel tokens m o s acc = Some (acc ++ ws)
      /\ windows_from tokens m o s ws.
Proof.
  intros Hom. induction fuel as [|fuel IH]; intros s acc Hs Hf; [lia|].
  simpl.
  destruct (Z.ltb_spec s (Z.of_nat (List.length tokens))) as [_|]; [|lia].
  destruct (s + m >=? Z.of_nat (List.length tokens)) eqn:Hend.
  - apply Z.geb_le in Hend.
    exists [py_slice tokens s (s + m)]. split; [reflexivity|].
    now apply windows_last.
  - assert (Hlt : s + m < Z.of_nat (List.length tokens)).
    { destruct (Z.le_gt_cases (Z.of_nat (List.length tokens)) (s + m)) as [Hle|]; [|lia].
      apply Z.geb_le in Hle. congruence. }
    destruct (IH (s + m - o) (acc ++ [py_slice tokens s (s + m)]))
      as (ws & Hrun & Hws); [lia | lia |].
    exists (py_slice tokens s (s + m) :: ws). split.
    + rewrite Hrun, <- app_assoc. reflexivity.
    + apply windows_more; [lia | lia | exact Hws].
Qed.

Lemma token_windows_empty (m o : Z) : token_windows [] m o = Some [].
Proof. reflexivity. Qed.

Lemma token_windows_from (tokens : list Z) (m o : Z) :
  0 <= o < m -> tokens <> [] ->
  exists ws,
    token_windows tokens m o = Some ws /\ windows_from tokens m o 0 ws.
Proof.
  intros Hom Hne. unfold token_windows.
  destruct (window_loop_from tokens m o Hom (S (List.length tokens)) 0 [])
    as (ws & Hrun & Hws).
  - destruct tokens; [congruence | simpl; lia].
  - lia.
  - exists ws. split; [exact Hrun | exact Hws].
Qed.

(** The slicer terminates whenever the overlap is below the window size. *)
Lemma token_windows_total (tokens : list Z) (m o : Z) :
  0 <= o < m -> exists ws, token_windows tokens m o = Some ws.
Proof.
  intros Hom. destruct tokens as [|t tokens].
  - exists []. reflexivity.
  - destruct (token_windows_from (t :: tokens) m o Hom) as (ws & Hrun & _);
      [discriminate|]. now exists ws.
Qed.

(** With [m <= o] and more than [m] tokens the offset never advances
    and the loop never reaches its [break]. *)
Lemma window_loop_diverges (tokens : list Z) (m o : Z) :
  m <= o ->
  0 < Z.of_nat (List.length tokens) ->
  m < Z.of_nat (List.length tokens) ->
  forall fuel s acc, s <= 0 -> window_loop fuel tokens m o s acc = None.
Proof.
  intros Hmo Hpos Hlen. induction fuel as [|fuel IH]; intros s acc Hs;
    simpl; [reflexivity|].
  destruct (Z.ltb_spec s (Z.of_nat (List.length tokens))) as [_|]; [|lia].
  destruct (s + m >=? Z.of_nat (List.length tokens)) eqn:Hend.
  - apply Z.geb_le in Hend. lia.
  - apply IH. lia.
Qed.

(** ** Shape of the windows *)

Section Windows.

Variables (tokens : list Z) (m o : Z).
Hypothesis Hom : 0 <= o < m.

Lemma windows_from_head (s : Z) (ws : list (list Z)) :
  windows_from tokens m o s ws ->
  0 <= s < Z.of_nat (List.length tokens)
  /\ exists rest, ws = py_slice tokens s (s + m) :: rest.
Proof.
  intros Hws. destruct Hws as [s Hs He | s ws Hs He Hrest].
  - split; [lia | now exists []].
  - split; [lia | now exists ws].
Qed.

Lemma windows_from_lengths (s : Z) (ws : list (list Z)) :
  windows_from tokens m o s ws ->
  Forall (fun w => 0 < Z.of_nat (List.length w) <= m) ws.
Proof.
  induction 1 as [s Hs He | s ws Hs He Hrest IH].
  - constructor; [|constructor].
    rewrite py_slice_window_length by lia. lia.
  - constructor; [|exact IH].
    rewrite py_slice_window_length by lia. lia.
Qed.

Lemma windows_from_two (s : Z) (ws : list (list Z)) :
  windows_from tokens m o s ws ->
  s + m < Z.of_nat (List.length tokens) ->
  (2 <= List.length ws)%nat.
Proof.
  intros Hws Hlt. destruct Hws as [s Hs He | s ws Hs He Hrest]; [lia|].
  destruct (windows_from_head _ _ Hrest) as (_ & rest & ->). simpl. lia.
Qed.

(** Consecutive windows share exactly [o] tokens. *)
Lemma windows_from_overlap (s : Z) (ws : list (list Z)) :
  windows_from tokens m o s ws ->
  forall (i : nat) (w1 w2 : list Z),
    nth_error ws i = Some w1 ->
    nth_error ws (S i) = Some w2 ->
    Z.of_nat (List.length w1) = m
    /\ o < Z.of_nat (List.length w2)
    /\ skipn (List.length w1 - Z.to_nat o) w1 = firstn (Z.to_nat o) w2.
Proof.
  induction 1 as [s Hs He | s ws Hs He Hrest IH]; intros i w1 w2 H1 H2.
  - destruct i; simpl in H2; [discriminate | now destruct i].
  - destruct i as [|i].
    + simpl in H1, H2. injection H1 as <-.
      destruct (windows_from_head _ _ Hrest) as (Hs' & rest & ->).
      simpl in H2. injection H2 as <-.
      assert (Hl1 : Z.of_nat (List.length (py_slice tokens s (s + m))) = m)
        by (rewrite py_slice_window_length by lia; lia).
      split; [exact Hl1|]. split.
      * rewrite py_slice_window_length by lia. lia.
      * replace (List.length (py_slice tokens s (s + m)))
          with (Z.to_nat m) by lia.
        rewrite !py_slice_window by lia.
        rewrite skipn_firstn_comm, skipn_skipn, firstn_firstn.
        replace (Z.to_nat m - (Z.to_nat m - Z.to_nat o))%nat
          with (Z.to_nat o) by lia.
        replace (Init.Nat.min (Z.to_nat o) (Z.to_nat m))
          with (Z.to_nat o) by lia.
        replace (Z.to_nat m - Z.to_nat o + Z.to_nat s)%nat
          with (Z.to_nat (s + m - o)) by lia.
        reflexivity.
    + simpl in H1, H2. exact (IH i w1 w2 H1 H2).
Qed.

(** The last window ends where the token list ends. *)
Lemma windows_from_last (s : Z) (ws : list (list Z)) :
  windows_from tokens m o s ws ->
  exists e, s <= e < Z.of_nat (List.length tokens)
            /\ last ws [] = skipn (Z.to_nat e) tokens.
Proof.
  induction 1 as [s Hs He | s ws Hs He Hrest IH].
  - exists s. split; [lia|]. simpl. apply py_slice_suffix; lia.
  - destruct IH as (e & He' & Hlast). exists e. split; [lia|].
    destruct (windows_from_head _ _ Hrest) as (_ & rest & Heq).
    rewrite Heq in *. exact Hlast.
Qed.

(** Every position from [s] on lies in some window: window [k] starts
    at offset [s + k * (m - o)]. *)
Lemma windows_from_cover (s : Z) (ws : list (list Z)) :
  windows_from tokens m o s ws ->
  forall i : nat,
    s <= Z.of_nat i < Z.of_nat (List.length tokens) ->
    exists (k j : nat) (w : list Z),
      nth_error ws k = Some w
      /\ nth_error w j = nth_error tokens i
      /\ Z.of_nat i = s + Z.of_nat k * (m - o) + Z.of_nat j.
Proof.
  induction 1 as [s Hs He | s ws Hs He Hrest IH]; intros i Hi.
  - exists 0%nat, (i - Z.to_nat s)%nat, (py_slice tokens s (s + m)).
    split; [reflexivity|]. split; [|lia].
    rewrite py_slice_suffix by lia. rewrite nth_error_skipn. f_equal. lia.
  - destruct (Z.lt_ge_cases (Z.of_nat i) (s + m)) as [Hin | Hout].
    + exists 0%nat, (i - Z.to_nat s)%nat, (py_slice tokens s (s + m)).
      split; [reflexivity|]. split; [|lia].
      rewrite py_slice_window by lia.
      rewrite nth_error_firstn, nth_error_skipn.
      destruct (Nat.ltb_spec (i - Z.to_nat s) (Z.to_nat m)); [|lia].
      f_equal. lia.
    + destruct (IH i) as (k & j & w & Hk & Hj & Hpos); [lia|].
      exists (S k), j, w. split; [exact Hk|]. split; [exact Hj|]. lia.
Qed.

End Windows.

(** ** Strings *)

Lemma str_app_nil_r (s : string) : (s ++ "")%string = s.
Proof. induction s as [|c s IH]; simpl; [reflexivity | now rewrite IH]. Qed.

Lemma str_app_assoc (a b c : string) :
  ((a ++ b) ++ c)%string = (a ++ (b ++ c))%string.
Proof. induction a as [|x a IH]; simpl; [reflexivity | now rewrite IH]. Qed.

Lemma all_space_app (a b : string) :
  PyStr.all_space (a ++ b) = PyStr.all_space a && PyStr.all_space b.
Proof.
  induction a as [|c a IH]; simpl; [reflexivity|].
  now rewrite IH, andb_assoc.
Qed.

Lemma is_empty_true (s : string) : PyStr.is_empty s = true -> s = "".
Proof. destruct s; [reflexivity | discriminate]. Qed.

Lemma lstrip_all_space (s : string) :
  PyStr.all_space s = true -> PyStr.lstrip s = "".
Proof.
  induction s as [|c s IH]; simpl; [reflexivity|].
  intros H. apply andb_prop in H as [Hc Hs]. rewrite Hc. now apply IH.
Qed.

Lemma lstrip_all_space_inv (s : string) :
  PyStr.all_space (PyStr.lstrip s) = true -> PyStr.all_space s = true.
Proof.
  induction s as [|c s IH]; simpl; [reflexivity|].
  destruct (PyStr.is_space c) eqn:Hc; simpl.
  - exact IH.
  - rewrite Hc. discriminate.
Qed.

Lemma rstrip_empty (s : string) :
  PyStr.rstrip s = "" -> PyStr.all_space s = true.
Proof.
  induction s as [|c s IH]; simpl; [reflexivity|].
  destruct (PyStr.is_space c) eqn:Hc; simpl; [|discriminate].
  destruct (PyStr.is_empty (PyStr.rstrip s)) eqn:He; [|discriminate].
  intros _. apply IH. now apply is_empty_true.
Qed.

(** A string strips to nothing exactly when it is whitespace only. *)
Lemma strip_empty_iff (s : string) :
  PyStr.strip s = "" <-> PyStr.all_space s = true.
Proof.
  unfold PyStr.strip. split.
  - intros H. apply lstrip_all_space_inv. now apply rstrip_empty.
  - intros H. now rewrite lstrip_all_space.
Qed.

(** The pieces of a whitespace-only string are whitespace only. *)
Lemma split_go_all_space (sep : string) :
  forall (s : string) (skip : nat) (cur : string),
    PyStr.all_space cur = true ->
    PyStr.all_space s = true ->
    Forall (fun p => PyStr.all_space p = true) (PyStr.split_go sep skip cur s).
Proof.
  induction s as [|c s IH]; intros skip cur Hcur Hs; cbn [PyStr.split_go].
  - constructor; [exact Hcur | constructor].
  - cbn [PyStr.all_space] in Hs. apply andb_prop in Hs as [Hc Hs].
    destruct skip as [|k]; [|now apply IH].
    destruct (String.prefix sep (String c s)).
    + constructor; [exact Hcur | now apply IH].
    + apply IH; [|exact Hs].
      rewrite all_space_app, Hcur. cbn [PyStr.all_space]. now rewrite Hc.
Qed.

Lemma stripped_pieces_all_space (sep text : string) :
  PyStr.all_space text = true -> stripped_pieces sep text = [].
Proof.
  intros H. unfold stripped_pieces, PyStr.split.
  assert (Hp := split_go_all_space sep text O "" eq_refl H).
  induction Hp as [|p ps Hp1 _ IH]; simpl; [reflexivity|].
  apply strip_empty_iff in Hp1. rewrite Hp1. simpl. exact IH.
Qed.

(** A text without the separator is its own single piece. *)
Lemma split_go_no_sep (sep : string) :
  forall (s cur : string),
    contains sep s = false ->
    PyStr.split_go sep O cur s = [(cur ++ s)%string].
Proof.
  induction s as [|c s IH]; intros cur H; cbn [PyStr.split_go].
  - now rewrite str_app_nil_r.
  - cbn [contains] in H. apply orb_false_elim in H as [Hp Hc].
    rewrite Hp, (IH _ Hc), str_app_assoc. reflexivity.
Qed.

Lemma stripped_pieces_single (sep text : string) :
  contains sep text = false ->
  PyStr.strip text = text ->
  text <> "" ->
  stripped_pieces sep text = [text].
Proof.
  intros Hc Hs Hne. unfold stripped_pieces, PyStr.split.
  rewrite (split_go_no_sep sep text "" Hc). cbn [append filter]. rewrite Hs.
  assert (Ht : PyStr.truthy text = true)
    by (destruct text; [congruence | reflexivity]).
  rewrite Ht. cbn [map]. now rewrite Hs.
Qed.

(** ** [enumerate] *)

Lemma combine_seq_fst {A : Type} (l : list A) (a : nat) :
  map fst (combine (map Z.of_nat (seq a (List.length l))) l)
  = map Z.of_nat (seq a (List.length l)).
Proof.
  revert a. induction l as [|x l IH]; intros a; simpl; [reflexivity|].
  now rewrite IH.
Qed.

Lemma combine_seq_snd {A : Type} (l : list A) (a : nat) :
  map snd (combine (map Z.of_nat (seq a (List.length l))) l) = l.
Proof.
  revert a. induction l as [|x l IH]; intros a; simpl; [reflexivity|].
  now rewrite IH.
Qed.

Lemma enumerate_fst {A : Type} (l : list A) :
  map fst (enumerate l) = map Z.of_nat (seq 0 (List.length l)).
Proof. apply combine_seq_fst. Qed.

Lemma enumerate_snd {A : Type} (l : list A) : map snd (enumerate l) = l.
Proof. apply combine_seq_snd. Qed.

Lemma enumerate_length {A : Type} (l : list A) :
  List.length (enumerate l) = List.length l.
Proof.
  unfold enumerate. rewrite length_combine, length_map, length_seq.
  apply Nat.min_id.
Qed.

(** ** The document store *)

Lemma for_each_reads {A B : Type} (f : A -> DocState.M B) (g : A -> B)
  (d : Document) :
  (forall a, f a d = (g a, d)) ->
  forall l, DocState.for_each f l d = (map g l, d).
Proof.
  intros Hf. induction l as [|a l IH]; simpl; [reflexivity|].
  unfold DocState.bind. rewrite Hf, IH. reflexivity.
Qed.

(** ** The chunker *)

Section ChunkerFacts.

Context {ENCODING : Encoding}.

Lemma count_tokens_nonneg (text : string) : 0 <= count_tokens text.
Proof. unfold count_tokens. lia. Qed.

Lemma total_tokens_nonneg (ps : list string) : 0 <= total_tokens ps.
Proof.
  induction ps as [|p ps IH]; simpl; [lia|].
  pose proof (count_tokens_nonneg p). lia.
Qed.

Lemma total_tokens_bound (ps : list string) (t : Z) :
  total_tokens ps <= t -> Forall (fun p => count_tokens p <= t) ps.
Proof.
  induction ps as [|p ps IH]; simpl; intros H; constructor.
  - pose proof (total_tokens_nonneg ps). lia.
  - apply IH. pose proof (count_tokens_nonneg p). lia.
Qed.

(** *** The paragraph loop against the rule of the specification *)

Lemma paragraph_loop_greedy (target_size : Z) :
  forall (ps : list string) (acc g : list string) (tot : Z),
    Forall (fun p => count_tokens p <= MAX_CHUNK_SIZE) ps ->
    (let '(chunks, current_chunk, _) :=
       fold_left (paragraph_step target_size) ps (acc, g, tot) in
     if nonempty current_chunk
     then chunks ++ [PyStr.join NLNL current_chunk] else chunks)
    = acc ++ map (PyStr.join NLNL) (spec_greedy_groups target_size g tot ps).
Proof.
  induction ps as [|p ps IH]; intros acc g tot Hfit.
  - cbn [fold_left spec_greedy_groups].
    destruct g; cbn [nonempty map]; [now rewrite app_nil_r | reflexivity].
  - inversion Hfit as [|? ? Hp Hps]; subst.
    cbn [fold_left spec_greedy_groups]. unfold paragraph_step at 2.
    destruct (Z.gtb_spec (count_tokens p) MAX_CHUNK_SIZE) as [Hbig|_]; [lia|].
    destruct ((tot + count_tokens p >? target_size) && nonempty g).
    + rewrite IH by exact Hps. cbn [map]. now rewrite <- app_assoc.
    + now rewrite IH by exact Hps.
Qed.

Lemma chunk_by_paragraphs_greedy (text : string) (target_size : Z) :
  Forall (fun p => count_tokens p <= MAX_CHUNK_SIZE) (paragraphs text) ->
  chunk_by_paragraphs text target_size
  = spec_pack_paragraphs target_size (paragraphs text).
Proof.
  intros Hfit. unfold chunk_by_paragraphs, spec_pack_paragraphs.
  now rewrite (paragraph_loop_greedy target_size _ [] [] 0 Hfit).
Qed.

Lemma spec_greedy_groups_concat (target_size : Z) :
  forall (ps g : list string) (tot : Z),
    List.concat (spec_greedy_groups target_size g tot ps) = g ++ ps.
Proof.
  induction ps as [|p ps IH]; intros g tot; cbn [spec_greedy_groups].
  - destruct g; cbn [nonempty List.concat]; [reflexivity|].
    now rewrite !app_nil_r.
  - destruct ((tot + count_tokens p >? target_size) && nonempty g).
    + cbn [List.concat]. now rewrite IH.
    + now rewrite IH, <- app_assoc.
Qed.

Lemma spec_greedy_groups_nonempty (target_size : Z) :
  forall (ps g : list string) (tot : Z),
    Forall (fun grp => grp <> []) (spec_greedy_groups target_size g tot ps).
Proof.
  induction ps as [|p ps IH]; intros g tot; cbn [spec_greedy_groups].
  - destruct g; cbn [nonempty]; constructor; [discriminate | constructor].
  - destruct ((tot + count_tokens p >? target_size) && nonempty g) eqn:Hc.
    + apply andb_prop in Hc as [_ Hg]. constructor; [|apply IH].
      destruct g; [discriminate | discriminate].
    + apply IH.
Qed.

(** Paragraphs whose counts stay within the target form one group. *)
Lemma spec_greedy_groups_single (target_size : Z) :
  forall (ps g : list string) (tot : Z),
    tot + total_tokens ps <= target_size ->
    g ++ ps <> [] ->
    spec_greedy_groups target_size g tot ps = [g ++ ps].
Proof.
  induction ps as [|p ps IH]; intros g tot Hsum Hne; cbn [spec_greedy_groups].
  - rewrite app_nil_r in *. destruct g; [congruence | reflexivity].
  - simpl in Hsum. pose proof (total_tokens_nonneg ps).
    destruct (Z.gtb_spec (tot + count_tokens p) target_size) as [Hgt|_]; [lia|].
    cbn [andb]. rewrite IH.
    + now rewrite <- app_assoc.
    + lia.
    + destruct g; discriminate.
Qed.

Lemma chunk_by_paragraphs_one_group (text : string) :
  paragraphs text <> [] ->
  total_tokens (paragraphs text) <= TARGET_CHUNK_SIZE ->
  chunk_by_paragraphs text TARGET_CHUNK_SIZE
  = [PyStr.join NLNL (paragraphs text)].
Proof.
  intros Hne Hsum. rewrite chunk_by_paragraphs_greedy.
  - unfold spec_pack_paragraphs.
    rewrite spec_greedy_groups_single; [reflexivity | lia | exact Hne].
  - apply total_tokens_bound in Hsum.
    eapply Forall_impl; [|exact Hsum].
    intros p Hp. cbv beta in Hp. unfold TARGET_CHUNK_SIZE, MAX_CHUNK_SIZE in *. lia.
Qed.

Lemma chunk_by_paragraphs_blank (text : string) (target_size : Z) :
  PyStr.all_space text = true -> chunk_by_paragraphs text target_size = [].
Proof.
  intros H. unfold chunk_by_paragraphs, paragraphs.
  now rewrite stripped_pieces_all_space.
Qed.

(** *** Re-measuring and slicing *)

Lemma unit_pieces_total (u : string) : exists ps, unit_pieces u ps
  /\ (if count_tokens u >? MAX_CHUNK_SIZE
      then split_text_by_tokens u TARGET_CHUNK_SIZE OVERLAP_SIZE = Some ps
      else ps = [u]).
Proof.
  destruct (Z.gtb_spec (count_tokens u) MAX_CHUNK_SIZE) as [Hbig|Hfit].
  - assert (Hpar : 0 <= OVERLAP_SIZE < TARGET_CHUNK_SIZE)
      by (unfold OVERLAP_SIZE, TARGET_CHUNK_SIZE; lia).
    assert (Hlen : TARGET_CHUNK_SIZE < Z.of_nat (List.length (encode u)))
      by (unfold count_tokens, MAX_CHUNK_SIZE, TARGET_CHUNK_SIZE in *; lia).
    destruct (token_windows_from (encode u) _ _ Hpar) as (ws & Hrun & Hws).
    { intros Hnil. rewrite Hnil in Hlen. unfold TARGET_CHUNK_SIZE in Hlen.
      simpl in Hlen. lia. }
    exists (map decode ws). split.
    + apply pieces_sliced; [exact Hbig | exact Hrun | |].
      * apply (windows_from_two _ _ _ Hpar _ _ Hws). lia.
      * apply (windows_from_lengths _ _ _ Hpar _ _ Hws).
    + rewrite split_text_by_tokens_windows, Hrun. reflexivity.
  - exists [u]. split; [now apply pieces_kept | reflexivity].
Qed.

Lemma assemble_pieces :
  forall (units acc : list string),
    exists pieces,
      assemble units acc = Some (acc ++ List.concat pieces)
      /\ Forall2 unit_pieces units pieces.
Proof.
  induction units as [|u units IH]; intros acc.
  - exists []. simpl. rewrite app_nil_r. split; [reflexivity | constructor].
  - destruct (unit_pieces_total u) as (ps & Hps & Hrun).
    cbn [assemble].
    destruct (count_tokens u >? MAX_CHUNK_SIZE).
    + rewrite Hrun. destruct (IH (acc ++ ps)) as (pieces & Hrest & Hall).
      exists (ps :: pieces). split; [|now constructor].
      rewrite Hrest. cbn [List.concat]. now rewrite app_assoc.
    + subst ps. destruct (IH (acc ++ [u])) as (pieces & Hrest & Hall).
      exists ([u] :: pieces). split; [|now constructor].
      rewrite Hrest. cbn [List.concat]. now rewrite app_assoc.
Qed.

(** *** The record builder *)

Lemma build_chunk_reads (d : Document) (total : Z) (entry : Z * string) :
  build_chunk (doc_id d) total entry d = (chunk_record d total entry, d).
Proof. destruct entry as [idx text]. reflexivity. Qed.

Lemma chunk_document_st_run (d : Document) :
  chunk_document_st d
  = (option_map (chunk_records d)
       (assemble (chunk_by_paragraphs (doc_content d) TARGET_CHUNK_SIZE) []),
     d).
Proof.
  unfold chunk_document_st, DocState.bind, DocState.getitem.
  destruct (assemble _ []) as [final_chunks|]; [|reflexivity].
  rewrite (for_each_reads _ _ d (build_chunk_reads d _)). reflexivity.
Qed.

Lemma chunk_document_eq (d : Document) :
  chunk_document d
  = option_map (chunk_records d)
      (assemble (chunk_by_paragraphs (doc_content d) TARGET_CHUNK_SIZE) []).
Proof. unfold chunk_document. now rewrite chunk_document_st_run. Qed.

Lemma chunk_records_content (d : Document) (fc : list string) :
  map content (chunk_records d fc) = fc.
Proof.
  unfold chunk_records. rewrite map_map. cbn [content chunk_record].
  apply enumerate_snd.
Qed.

Lemma chunk_records_index (d : Document) (fc : list string) :
  map chunk_index (chunk_records d fc)
  = map Z.of_nat (seq 0 (List.length fc)).
Proof.
  unfold chunk_records. rewrite map_map. cbn [chunk_index chunk_record].
  apply enumerate_fst.
Qed.

Lemma chunk_records_length (d : Document) (fc : list string) :
  List.length (chunk_records d fc) = List.length fc.
Proof. unfold chunk_records. now rewrite length_map, enumerate_length. Qed.

(** [chunk_document] returns for every document. *)
Lemma chunk_document_returns (d : Document) :
  exists pieces,
    chunk_document d = Some (chunk_records d (List.concat pieces))
    /\ Forall2 unit_pieces
         (chunk_by_paragraphs (doc_content d) TARGET_CHUNK_SIZE) pieces.
Proof.
  destruct (assemble_pieces
              (chunk_by_paragraphs (doc_content d) TARGET_CHUNK_SIZE) [])
    as (pieces & Hrun & Hall).
  exists pieces. split; [|exact Hall].
  rewrite chunk_document_eq, Hrun. reflexivity.
Qed.

End ChunkerFacts.

(** ** The packer on every list of paragraphs *)

Section PackingFacts.

Context {ENCODING : Encoding}.

Lemma chunk_by_paragraphs_units (text : string) (target_size : Z) :
  chunk_by_paragraphs text target_size
  = units_of_paragraphs target_size (paragraphs text).
Proof. reflexivity. Qed.

(** The units already collected do not influence the loops. *)
Lemma sentence_loop_acc (ss : list string) :
  forall (chunks temp : list string) (t : Z),
    fold_left sentence_step ss (chunks, temp, t)
    = let '(fresh, temp', t') := fold_left sentence_step ss ([], temp, t) in
      (chunks ++ fresh, temp', t').
Proof.
  induction ss as [|s ss IH]; intros chunks temp t; cbn [fold_left].
  - now rewrite app_nil_r.
  - unfold sentence_step at 2 4.
    destruct (t + count_tokens s >? MAX_CHUNK_SIZE).
    + destruct temp as [|x temp]; cbn [nonempty].
      * apply IH.
      * rewrite IH, (IH [PyStr.join " " (x :: temp)]).
        destruct (fold_left sentence_step ss ([], [s], count_tokens s))
          as [[fresh temp'] t'].
        now rewrite <- app_assoc.
    + apply IH.
Qed.

Lemma split_large_paragraph_acc (chunks : list string) (p : string) :
  split_large_paragraph chunks p = chunks ++ split_large_paragraph [] p.
Proof.
  unfold split_large_paragraph. rewrite sentence_loop_acc.
  destruct (fold_left sentence_step (sentences p) ([], [], 0))
    as [[fresh temp'] t'].
  destruct (nonempty temp'); [now rewrite <- app_assoc | reflexivity].
Qed.

(** The paragraph loop computes the packing of the specification; the
    running total is 0 whenever no group is open. *)
Lemma paragraph_loop_pack (target_size : Z) :
  forall (ps : list string) (acc g : list string) (tot : Z),
    (g = [] -> tot = 0) ->
    (let '(chunks, current_chunk, _) :=
       fold_left (paragraph_step target_size) ps (acc, g, tot) in
     if nonempty current_chunk
     then chunks ++ [PyStr.join NLNL current_chunk] else chunks)
    = acc ++ flat_map item_units (spec_pack target_size g tot ps).
Proof.
  induction ps as [|p ps IH]; intros acc g tot Hinv.
  - cbn [fold_left spec_pack].
    destruct g; cbn [nonempty flat_map item_units app];
      [now rewrite app_nil_r | reflexivity].
  - cbn [fold_left spec_pack]. unfold paragraph_step at 2.
    destruct (count_tokens p >? MAX_CHUNK_SIZE).
    + destruct g as [|x g]; cbn [nonempty app flat_map item_units].
      * rewrite (Hinv eq_refl), IH by reflexivity.
        rewrite split_large_paragraph_acc. now rewrite <- app_assoc.
      * rewrite IH by reflexivity. rewrite split_large_paragraph_acc.
        rewrite <- !app_assoc. reflexivity.
    + destruct ((tot + count_tokens p >? target_size) && nonempty g).
      * rewrite IH by discriminate.
        cbn [flat_map item_units app]. now rewrite <- app_assoc.
      * apply IH. now destruct g.
Qed.

Lemma units_of_paragraphs_pack (target_size : Z) (ps : list string) :
  units_of_paragraphs target_size ps
  = flat_map item_units (spec_pack target_size [] 0 ps).
Proof.
  unfold units_of_paragraphs.
  now rewrite (paragraph_loop_pack target_size ps [] [] 0).
Qed.

(** Every paragraph is in exactly one item, in document order. *)
Lemma spec_pack_keeps_paragraphs (target_size : Z) :
  forall (ps g : list string) (tot : Z),
    flat_map item_paragraphs (spec_pack target_size g tot ps) = g ++ ps.
Proof.
  induction ps as [|p ps IH]; intros g tot; cbn [spec_pack].
  - destruct g; cbn [nonempty flat_map item_paragraphs app];
      [reflexivity | now rewrite !app_nil_r].
  - destruct (count_tokens p >? MAX_CHUNK_SIZE).
    + rewrite flat_map_app. cbn [flat_map item_paragraphs]. rewrite IH.
      destruct g; cbn [nonempty flat_map item_paragraphs app];
        [reflexivity | now rewrite app_nil_r].
    + destruct ((tot + count_tokens p >? target_size) && nonempty g).
      * cbn [flat_map item_paragraphs]. now rewrite IH.
      * now rewrite IH, <- app_assoc.
Qed.

(** Groups are non-empty and hold paragraphs within [MAX_CHUNK_SIZE]
    only; the paragraphs set apart are the ones over it. *)
Lemma spec_pack_items (target_size : Z) :
  forall (ps g : list string) (tot : Z),
    Forall (fun p => count_tokens p <= MAX_CHUNK_SIZE) g ->
    Forall (fun it =>
              match it with
              | PackedGroup group =>
                  group <> []
                  /\ Forall (fun p => count_tokens p <= MAX_CHUNK_SIZE) group
              | OversizedParagraph p => MAX_CHUNK_SIZE < count_tokens p
              end)
           (spec_pack target_size g tot ps).
Proof.
  induction ps as [|p ps IH]; intros g tot Hg; cbn [spec_pack].
  - destruct g; cbn [nonempty]; constructor; [|constructor].
    split; [discriminate | exact Hg].
  - destruct (Z.gtb_spec (count_tokens p) MAX_CHUNK_SIZE) as [Hbig|Hfit].
    + apply Forall_app. split.
      * destruct g; cbn [nonempty]; constructor; [|constructor].
        split; [discriminate | exact Hg].
      * constructor; [exact Hbig | apply IH; constructor].
    + destruct ((tot + count_tokens p >? target_size) && nonempty g) eqn:Hc.
      * apply andb_prop in Hc as [_ Hn]. constructor.
        -- split; [destruct g; discriminate | exact Hg].
        -- apply IH. now repeat constructor.
      * apply IH. apply Forall_app. split; [exact Hg | now repeat constructor].
Qed.

(** On paragraphs within [MAX_CHUNK_SIZE] the packing is the greedy
    grouping. *)
Lemma spec_pack_fitting (target_size : Z) :
  forall (ps g : list string) (tot : Z),
    Forall (fun p => count_tokens p <= MAX_CHUNK_SIZE) ps ->
    spec_pack target_size g tot ps
    = map PackedGroup (spec_greedy_groups target_size g tot ps).
Proof.
  induction ps as [|p ps IH]; intros g tot Hfit;
    cbn [spec_pack spec_greedy_groups].
  - destruct g; reflexivity.
  - inversion Hfit as [|? ? Hp Hps]; subst.
    destruct (Z.gtb_spec (count_tokens p) MAX_CHUNK_SIZE) as [Hbig|_]; [lia|].
    destruct ((tot + count_tokens p >? target_size) && nonempty g).
    + cbn [map]. now rewrite IH.
    + now apply IH.
Qed.



(** *** What a unit contributes *)





(** *** The sentence fallback gives at least two chunks *)




(** A single paragraph within [MAX_CHUNK_SIZE] is one unit, whatever
    the target size. *)
Lemma units_of_single_paragraph (target_size : Z) (p : string) :
  count_tokens p <= MAX_CHUNK_SIZE ->
  units_of_paragraphs target_size [p] = [p].
Proof.
  intros Hfit. unfold units_of_paragraphs. cbn [fold_left].
  unfold paragraph_step.
  destruct (Z.gtb_spec (count_tokens p) MAX_CHUNK_SIZE) as [Hbig|_]; [lia|].
  cbn [nonempty]. rewrite andb_false_r. reflexivity.
Qed.

End PackingFacts.

(** * The properties of the specification *)

Section Properties.

Context {ENCODING : Encoding}.

(** C1 (amended).  A document with at least one paragraph, whose
    trimmed paragraphs joined by a blank line are the content itself,
    which is a single paragraph or has paragraph token counts summing
    to at most [TARGET_CHUNK_SIZE], and whose content counts at most
    [MAX_CHUNK_SIZE] tokens, yields exactly one chunk, and that chunk's
    content is the document's content. *)
Theorem single_chunk_when_paragraphs_fit (doc : Document) :
  paragraphs (doc_content doc) <> [] ->
  PyStr.join NLNL (paragraphs (doc_content doc)) = doc_content doc ->
  (List.length (paragraphs (doc_content doc)) = 1%nat
   \/ total_tokens (paragraphs (doc_content doc)) <= TARGET_CHUNK_SIZE) ->
  count_tokens (doc_content doc) <= MAX_CHUNK_SIZE ->
  exists c, chunk_document doc = Some [c] /\ content c = doc_content doc.
Proof.
  intros Hne Hjoin Hcase Hfit.
  assert (Hunits : chunk_by_paragraphs (doc_content doc) TARGET_CHUNK_SIZE
                   = [doc_content doc]).
  { destruct Hcase as [Hone | Hsum].
    - rewrite chunk_by_paragraphs_units.
      destruct (paragraphs (doc_content doc)) as [|p [|q ps]];
        [discriminate | | discriminate].
      cbn [PyStr.join] in Hjoin. subst p.
      now apply units_of_single_paragraph.
    - rewrite chunk_by_paragraphs_one_group by assumption. now rewrite Hjoin. }
  rewrite chunk_document_eq, Hunits. cbn [assemble].
  destruct (Z.gtb_spec (count_tokens (doc_content doc)) MAX_CHUNK_SIZE)
    as [Hbig|_]; [lia|].
  cbn [app option_map]. eexists. split; reflexivity.
Qed.

(** A trimmed, non-empty text without a blank line is in the form the
    previous theorem asks for. *)
Lemma single_paragraph_form (text : string) :
  contains NLNL text = false ->
  PyStr.strip text = text ->
  text <> "" ->
  paragraphs text = [text] /\ PyStr.join NLNL (paragraphs text) = text.
Proof.
  intros Hc Hs Hne. unfold paragraphs.
  rewrite (stripped_pieces_single NLNL text Hc Hs Hne). now split.
Qed.

(** C2 (amended).  The module raises no configuration error and has
    no guard; its constants satisfy [0 <= OVERLAP_SIZE <
    TARGET_CHUNK_SIZE <= MAX_CHUNK_SIZE]; on every token sequence the
    loop of the slicer finishes for these constants, and whenever
    [0 <= overlap < max_tokens]; with [max_tokens <= overlap] on a
    token sequence longer than [max_tokens] it never finishes. *)
Theorem slicer_relies_on_constants :
  0 <= OVERLAP_SIZE < TARGET_CHUNK_SIZE
  /\ TARGET_CHUNK_SIZE <= MAX_CHUNK_SIZE
  /\ (forall tokens : list Z,
        exists chunks,
          split_loop (S (List.length tokens)) tokens
                     TARGET_CHUNK_SIZE OVERLAP_SIZE 0 [] = Some chunks)
  /\ (forall (tokens : list Z) (m o : Z),
        0 <= o < m ->
        exists chunks,
          split_loop (S (List.length tokens)) tokens m o 0 [] = Some chunks)
  /\ (forall (tokens : list Z) (m o : Z) (fuel : nat),
        m <= o ->
        0 < Z.of_nat (List.length tokens) ->
        m < Z.of_nat (List.length tokens) ->
        split_loop fuel tokens m o 0 [] = None).
Proof.
  assert (Hc : 0 <= OVERLAP_SIZE < TARGET_CHUNK_SIZE)
    by (unfold OVERLAP_SIZE, TARGET_CHUNK_SIZE; lia).
  assert (Hloop : forall (tokens : list Z) (m o : Z),
             0 <= o < m ->
             exists chunks,
               split_loop (S (List.length tokens)) tokens m o 0 []
               = Some chunks).
  { intros tokens m o Hom.
    destruct (token_windows_total tokens m o Hom) as (ws & Hws).
    exists (map decode ws).
    rewrite (split_loop_windows tokens m o _ 0 []).
    unfold token_windows in Hws. now rewrite Hws. }
  split; [exact Hc|].
  split; [unfold TARGET_CHUNK_SIZE, MAX_CHUNK_SIZE; lia|].
  split; [intros tokens; now apply Hloop|].
  split; [exact Hloop|].
  intros tokens m o fuel Hmo Hpos Hlen.
  rewrite (split_loop_windows tokens m o fuel 0 []).
  now rewrite window_loop_diverges by lia.
Qed.

(** C3 (amended).  A document whose content is empty or whitespace
    only yields the empty list of chunks; no error is raised. *)
Theorem blank_document_yields_no_chunks (doc : Document) :
  PyStr.strip (doc_content doc) = "" ->
  chunk_document doc = Some [].
Proof.
  intros H. apply strip_empty_iff in H.
  rewrite chunk_document_eq, chunk_by_paragraphs_blank by exact H.
  reflexivity.
Qed.

(** C4.  For a document producing N chunks the [chunk_index] values are
    0 .. N-1 in order, every chunk's metadata carries [total_chunks] =
    N (and the same index), and every [chunk_id] is
    ["{id}_chunk_{chunk_index}"]. *)
Theorem chunk_indices_totals_and_ids (doc : Document) :
  exists cs,
    chunk_document doc = Some cs
    /\ map chunk_index cs = map Z.of_nat (seq 0 (List.length cs))
    /\ Forall (fun c =>
                 md_total_chunks (metadata c) = Z.of_nat (List.length cs)
                 /\ md_chunk_index (metadata c) = chunk_index c) cs
    /\ Forall (fun c =>
                 chunk_id c
                 = (doc_id doc ++ "_chunk_" ++ PyStr.of_int (chunk_index c))%string)
              cs.
Proof.
  destruct (chunk_document_returns doc) as (pieces & Hrun & _).
  exists (chunk_records doc (List.concat pieces)).
  split; [exact Hrun|].
  rewrite chunk_records_length.
  split; [apply chunk_records_index|].
  unfold chunk_records.
  split; apply Forall_map, Forall_forall; intros e _; cbn; auto.
Qed.

(** C5.  Every emitted chunk's [token_count] is the tokenizer's count
    of that chunk's own content. *)
Theorem token_count_is_remeasured (doc : Document) :
  exists cs,
    chunk_document doc = Some cs
    /\ Forall (fun c => token_count c = count_tokens (content c)) cs.
Proof.
  destruct (chunk_document_returns doc) as (pieces & Hrun & _).
  eexists. split; [exact Hrun|].
  unfold chunk_records. apply Forall_map, Forall_forall.
  intros e _. reflexivity.
Qed.

(** C6.  With [0 <= overlap < max_tokens] the slicer returns, and for
    any two consecutive windows the last [overlap] tokens of the first
    are the first [overlap] tokens of the second. *)
Theorem consecutive_windows_overlap (text : string) (m o : Z) :
  0 <= o < m ->
  exists ws,
    token_windows (encode text) m o = Some ws
    /\ split_text_by_tokens text m o = Some (map decode ws)
    /\ forall (i : nat) (w1 w2 : list Z),
         nth_error ws i = Some w1 ->
         nth_error ws (S i) = Some w2 ->
         Z.of_nat (List.length w1) = m
         /\ o < Z.of_nat (List.length w2)
         /\ skipn (List.length w1 - Z.to_nat o) w1 = firstn (Z.to_nat o) w2.
Proof.
  intros Hom. destruct (encode text) as [|t tokens] eqn:Henc.
  - exists []. rewrite split_text_by_tokens_windows, Henc.
    split; [reflexivity|]. split; [reflexivity|].
    intros i w1 w2 H1. now destruct i.
  - destruct (token_windows_from (t :: tokens) m o Hom) as (ws & Hrun & Hws);
      [discriminate|].
    exists ws. rewrite split_text_by_tokens_windows, Henc, Hrun.
    split; [reflexivity|]. split; [reflexivity|].
    exact (windows_from_overlap _ _ _ Hom _ _ Hws).
Qed.


(** A trimmed paragraph over [MAX_CHUNK_SIZE] without a period is one
    sentence: the unit it contributes is the paragraph with a period
    appended. *)
Lemma unterminated_paragraph_unit (chunks : list string) (p : string) :
  contains "." p = false ->
  PyStr.strip p = p ->
  p <> "" ->
  split_large_paragraph chunks p = chunks ++ [(p ++ ".")%string].
Proof.
  intros Hc Hs Hne. unfold split_large_paragraph, sentences.
  rewrite (stripped_pieces_single "." p Hc Hs Hne).
  cbn [map fold_left]. unfold sentence_step.
  destruct (0 + count_tokens (p ++ ".") >? MAX_CHUNK_SIZE); reflexivity.
Qed.

(** C8.  For every text the paragraph loop computes the packing of
    the specification: each paragraph within [MAX_CHUNK_SIZE] closes
    the current group when adding it would push the running total
    above the target and the group is non-empty, and otherwise joins
    it; the trailing group is flushed; every paragraph lies in exactly
    one item, in document order, also when the text holds paragraphs
    over [MAX_CHUNK_SIZE]; no group is empty; and when no paragraph is
    over [MAX_CHUNK_SIZE] the units are the greedy groups joined by
    blank lines. *)
Theorem paragraph_packer_is_greedy (text : string) (target_size : Z) :
  chunk_by_paragraphs text target_size
  = flat_map item_units (spec_pack target_size [] 0 (paragraphs text))
  /\ flat_map item_paragraphs (spec_pack target_size [] 0 (paragraphs text))
     = paragraphs text
  /\ Forall (fun it =>
               match it with
               | PackedGroup group =>
                   group <> []
                   /\ Forall (fun p => count_tokens p <= MAX_CHUNK_SIZE) group
               | OversizedParagraph p => MAX_CHUNK_SIZE < count_tokens p
               end)
            (spec_pack target_size [] 0 (paragraphs text))
  /\ (Forall (fun p => count_tokens p <= MAX_CHUNK_SIZE) (paragraphs text) ->
      chunk_by_paragraphs text target_size
      = map (PyStr.join NLNL)
            (spec_greedy_groups target_size [] 0 (paragraphs text))
      /\ List.concat (spec_greedy_groups target_size [] 0 (paragraphs text))
         = paragraphs text
      /\ Forall (fun group => group <> [])
                (spec_greedy_groups target_size [] 0 (paragraphs text))).
Proof.
  split; [|split; [|split]].
  - rewrite chunk_by_paragraphs_units. apply units_of_paragraphs_pack.
  - apply (spec_pack_keeps_paragraphs target_size (paragraphs text) [] 0).
  - apply spec_pack_items. constructor.
  - intros Hfit. split; [|split].
    + now apply chunk_by_paragraphs_greedy.
    + apply spec_greedy_groups_concat.
    + apply spec_greedy_groups_nonempty.
Qed.

(** C9.  [chunk_document] leaves the caller's document as it found it:
    the store after the call is the store before it, field by field. *)
Theorem chunk_document_reads_only (doc : Document) :
  let after := snd (chunk_document_st doc) in
  after = doc
  /\ doc_id after = doc_id doc
  /\ doc_title after = doc_title doc
  /\ doc_category after = doc_category doc
  /\ doc_tags after = doc_tags doc
  /\ doc_content after = doc_content doc
  /\ doc_source after = doc_source doc
  /\ doc_url after = doc_url doc
  /\ doc_difficulty after = doc_difficulty doc.
Proof.
  cbv zeta. rewrite chunk_document_st_run. cbn [snd]. repeat split.
Qed.

(** C10.  With [0 < max_tokens] and [0 <= overlap < max_tokens] the
    slicer returns; its last window is a suffix of the token sequence,
    so it ends where the tokens end; and every token position lies in
    some window, window [k] starting at offset [k * (max_tokens -
    overlap)]. *)
Theorem slicer_terminates_and_covers (text : string) (m o : Z) :
  0 < m ->
  0 <= o < m ->
  exists ws,
    token_windows (encode text) m o = Some ws
    /\ split_text_by_tokens text m o = Some (map decode ws)
    /\ (encode text = [] -> ws = [])
    /\ (encode text <> [] ->
        exists e, 0 <= e < Z.of_nat (List.length (encode text))
                  /\ last ws [] = skipn (Z.to_nat e) (encode text))
    /\ (forall i : nat,
          (i < List.length (encode text))%nat ->
          exists (k j : nat) (w : list Z),
            nth_error ws k = Some w
            /\ nth_error w j = nth_error (encode text) i
            /\ Z.of_nat i = Z.of_nat k * (m - o) + Z.of_nat j).
Proof.
  intros _ Hom. rewrite split_text_by_tokens_windows.
  destruct (encode text) as [|t tokens] eqn:Henc.
  - exists []. split; [reflexivity|]. split; [reflexivity|].
    split; [reflexivity|]. split; [congruence|].
    intros i Hi. simpl in Hi. lia.
  - destruct (token_windows_from (t :: tokens) m o Hom) as (ws & Hrun & Hws);
      [discriminate|].
    exists ws. rewrite Hrun. split; [reflexivity|]. split; [reflexivity|].
    split; [discriminate|]. split.
    + intros _. exact (windows_from_last _ _ _ Hom _ _ Hws).
    + intros i Hi.
      destruct (windows_from_cover _ _ _ Hom _ _ Hws i) as (k & j & w & H1 & H2 & H3);
        [lia|].
      exists k, j, w. split; [exact H1|]. split; [exact H2|]. lia.
Qed.

End Properties.

(** * Concrete runs with the one-token-per-character tokenizer *)

Section Runs.

#[local] Existing Instance char_encoding.

(** C1, instance of the amended statement: a single paragraph of 900
    tokens, over the target and within the maximum, gives one chunk
    holding the content. *)
Lemma single_chunk_witness :
  paragraphs one_long_paragraph <> []
  /\ PyStr.join NLNL (paragraphs one_long_paragraph) = one_long_paragraph
  /\ List.length (paragraphs one_long_paragraph) = 1%nat
  /\ count_tokens one_long_paragraph <= MAX_CHUNK_SIZE
  /\ exists c, chunk_document (sample_doc one_long_paragraph) = Some [c]
               /\ content c = one_long_paragraph.
Proof.
  assert (H1 : paragraphs one_long_paragraph <> [])
    by (vm_compute; discriminate).
  assert (H2 : PyStr.join NLNL (paragraphs one_long_paragraph)
               = one_long_paragraph)
    by (vm_compute; reflexivity).
  assert (H3 : List.length (paragraphs one_long_paragraph) = 1%nat)
    by (vm_compute; reflexivity).
  assert (H4 : count_tokens one_long_paragraph <= MAX_CHUNK_SIZE)
    by (vm_compute; discriminate).
  exact (conj H1 (conj H2 (conj H3 (conj H4
    (single_chunk_when_paragraphs_fit (sample_doc one_long_paragraph)
       H1 H2 (or_introl H3) H4))))).
Defined.

(** Two short paragraphs within the target also give one chunk. *)
Example two_short_paragraphs_one_chunk :
  option_map (map content) (chunk_document (sample_doc hello_world))
  = Some [hello_world].
Proof. vm_compute. reflexivity. Qed.

(** C1, the statement of the specification fails, in three ways: a
    content of 802 tokens, within [MAX_CHUNK_SIZE], is cut into two
    chunks because its two paragraphs together exceed
    [TARGET_CHUNK_SIZE]; a fitting content with surrounding whitespace
    comes out trimmed; the empty content gives no chunk. *)
Lemma fitting_content_split_in_two :
  (count_tokens two_paragraphs = 802
   /\ 802 <= MAX_CHUNK_SIZE
   /\ option_map (map content) (chunk_document (sample_doc two_paragraphs))
      = Some [PyStr.repeat_str "a" 400; PyStr.repeat_str "b" 400])
  /\ (count_tokens "  hello " = 8
      /\ option_map (map content) (chunk_document (sample_doc "  hello "))
         = Some ["hello"])
  /\ (count_tokens "" = 0
      /\ chunk_document (sample_doc "") = Some []).
Proof.
  split; [|split].
  - split; [vm_compute; reflexivity|].
    split; [vm_compute; discriminate | vm_compute; reflexivity].
  - split; vm_compute; reflexivity.
  - split; vm_compute; reflexivity.
Qed.

(** A fitting content with surrounding whitespace is emitted trimmed. *)
Example padded_content_is_trimmed :
  option_map (map content) (chunk_document (sample_doc "  hello "))
  = Some ["hello"].
Proof. vm_compute. reflexivity. Qed.

(** C2, the scenario of the specification ([overlap_size] 800 against
    [target_chunk_size] 750): no error is raised, the slicer does not
    return under its own fuel nor under any other. *)
Lemma unguarded_overlap_never_returns :
  split_text_by_tokens long_paragraph 750 800 = None
  /\ forall fuel : nat,
       split_text_by_tokens_fuel fuel long_paragraph 750 800 = None.
Proof.
  assert (Hlen : List.length (encode long_paragraph) = 1400%nat)
    by (vm_compute; reflexivity).
  assert (Hall : forall fuel : nat,
             split_text_by_tokens_fuel fuel long_paragraph 750 800 = None).
  { intros fuel. unfold split_text_by_tokens_fuel.
    rewrite (split_loop_windows (encode long_paragraph) 750 800 fuel 0 []).
    rewrite window_loop_diverges; [reflexivity | lia | | | lia];
      rewrite Hlen; lia. }
  split; [apply Hall | exact Hall].
Qed.

(** C3, instance of the amended statement. *)
Lemma blank_document_witness :
  PyStr.strip blank_text = ""
  /\ chunk_document (sample_doc blank_text) = Some [].
Proof.
  assert (H : PyStr.strip (doc_content (sample_doc blank_text)) = "")
    by (vm_compute; reflexivity).
  exact (conj H (blank_document_yields_no_chunks (sample_doc blank_text) H)).
Defined.

(** C3, the statement of the specification fails: the empty document
    is chunked without error into the empty list. *)
Lemma empty_document_returns_empty_list :
  chunk_document (sample_doc "") = Some [].
Proof. vm_compute. reflexivity. Qed.

(** C6, instance: windows of 3 tokens overlapping by 1. *)
Lemma consecutive_windows_overlap_witness :
  0 <= 1 < 3
  /\ exists ws,
       token_windows (encode "abcdefg") 3 1 = Some ws
       /\ split_text_by_tokens "abcdefg" 3 1 = Some (map decode ws)
       /\ forall (i : nat) (w1 w2 : list Z),
            nth_error ws i = Some w1 ->
            nth_error ws (S i) = Some w2 ->
            Z.of_nat (List.length w1) = 3
            /\ 1 < Z.of_nat (List.length w2)
            /\ skipn (List.length w1 - Z.to_nat 1) w1
               = firstn (Z.to_nat 1) w2.
Proof.
  assert (H : 0 <= 1 < 3) by lia.
  exact (conj H (consecutive_windows_overlap "abcdefg" 3 1 H)).
Defined.

Example windows_of_seven_tokens :
  option_map (map decode) (token_windows (encode "abcdefg") 3 1)
  = Some ["abc"; "cde"; "efg"].
Proof. vm_compute. reflexivity. Qed.


(** The same document run: the paragraph of 1499 tokens gives a
    fragment of 250 sentences, re-measured at 1249 tokens and sliced in
    two windows, and a fragment of 50 sentences kept whole. *)
Example mixed_document_token_counts :
  option_map (map token_count) (chunk_document (sample_doc mixed_content))
  = Some [5; 750; 549; 249; 5].
Proof. vm_compute. reflexivity. Qed.


(** A paragraph of periods only, over [MAX_CHUNK_SIZE], leaves no chunk. *)
Example period_only_paragraph_vanishes :
  count_tokens (PyStr.repeat_str "." 1001) = 1001
  /\ chunk_document (sample_doc (PyStr.repeat_str "." 1001)) = Some [].
Proof. split; vm_compute; reflexivity. Qed.

(** The example of the specification: 1400 tokens without sentence
    terminator give two chunks of 750 and 701 tokens (the appended
    period is the 1401st token). *)
Example long_paragraph_two_chunks :
  option_map (map (fun c => (chunk_id c, token_count c)))
             (chunk_document (sample_doc long_paragraph))
  = Some [("doc_chunk_0", 750); ("doc_chunk_1", 701)].
Proof. vm_compute. reflexivity. Qed.

(** The packing of a text holding a paragraph over [MAX_CHUNK_SIZE]:
    the short paragraphs around it stay in their own groups, in order. *)
Example packing_of_mixed_document :
  map item_paragraphs (spec_pack TARGET_CHUNK_SIZE [] 0 (paragraphs mixed_content))
  = [["intro"]; [PyStr.strip sentence_block]; ["outro"]]
  /\ map (fun u => String.length u)
         (chunk_by_paragraphs mixed_content TARGET_CHUNK_SIZE)
     = [5; 1249; 249; 5]%nat.
Proof. split; vm_compute; reflexivity. Qed.

(** The groups close when the target would be passed. *)
Example packer_closes_group_at_target :
  chunk_by_paragraphs two_paragraphs TARGET_CHUNK_SIZE
  = [PyStr.repeat_str "a" 400; PyStr.repeat_str "b" 400].
Proof. vm_compute. reflexivity. Qed.

(** C10, instance: seven tokens, windows of 3 overlapping by 1. *)
Lemma slicer_terminates_witness :
  0 < 3 /\ 0 <= 1 < 3
  /\ exists ws,
       token_windows (encode "abcdefg") 3 1 = Some ws
       /\ split_text_by_tokens "abcdefg" 3 1 = Some (map decode ws)
       /\ (encode "abcdefg" = [] -> ws = [])
       /\ (encode "abcdefg" <> [] ->
           exists e, 0 <= e < Z.of_nat (List.length (encode "abcdefg"))
                     /\ last ws [] = skipn (Z.to_nat e) (encode "abcdefg"))
       /\ (forall i : nat,
             (i < List.length (encode "abcdefg"))%nat ->
             exists (k j : nat) (w : list Z),
               nth_error ws k = Some w
               /\ nth_error w j = nth_error (encode "abcdefg") i
               /\ Z.of_nat i = Z.of_nat k * (3 - 1) + Z.of_nat j).
Proof.
  assert (H1 : 0 < 3) by lia.
  assert (H2 : 0 <= 1 < 3) by lia.
  exact (conj H1 (conj H2 (slicer_terminates_and_covers "abcdefg" 3 1 H1 H2))).
Defined.

End Runs.

(** * Further properties of [split_text_by_tokens] *)

(** Whenever [o < m] the loop finishes, whatever the signs of [m] and
    [o]: the offset grows by [m - o > 0] per iteration. *)
Lemma window_loop_returns (tokens : list Z) (m o : Z) :
  o < m ->
  forall fuel s acc,
    0 <= s ->
    Z.max 0 (Z.of_nat (List.length tokens) - s) < Z.of_nat fuel ->
    exists ws, window_loop fuel tokens m o s acc = Some ws.
Proof.
  intros Hom. induction fuel as [|fuel IH]; intros s acc Hs Hf; [lia|].
  cbn [window_loop].
  destruct (Z.ltb_spec s (Z.of_nat (List.length tokens))) as [Hlt|Hge];
    [|eexists; reflexivity].
  destruct (s + m >=? Z.of_nat (List.length tokens)); [eexists; reflexivity|].
  apply IH; lia.
Qed.

(** A token list that fits the window is emitted whole by the first
    iteration, whatever the overlap. *)
Lemma window_loop_fits (tokens : list Z) (m o : Z) :
  0 < Z.of_nat (List.length tokens) <= m ->
  token_windows tokens m o = Some [tokens].
Proof.
  intros Hlen. unfold token_windows. cbn [window_loop].
  destruct (Z.ltb_spec 0 (Z.of_nat (List.length tokens))) as [_|]; [|lia].
  destruct (0 + m >=? Z.of_nat (List.length tokens)) eqn:Hend.
  - rewrite py_slice_suffix by lia. reflexivity.
  - destruct (Z.le_gt_cases (Z.of_nat (List.length tokens)) (0 + m)) as [Hle|]; [|lia].
    apply Z.geb_le in Hle. congruence.
Qed.

Section WindowShape.

Variables (tokens : list Z) (m o : Z).
Hypothesis Hom : 0 <= o < m.

(** Window [k] counted from offset [s] is the slice starting at
    [s + k * (m - o)]. *)
Lemma windows_from_nth (s : Z) (ws : list (list Z)) :
  windows_from tokens m o s ws ->
  forall (k : nat) (w : list Z),
    nth_error ws k = Some w ->
    w = py_slice tokens (s + Z.of_nat k * (m - o))
                        (s + Z.of_nat k * (m - o) + m).
Proof.
  induction 1 as [s Hs He | s ws Hs He Hrest IH]; intros k w Hk.
  - destruct k as [|k]; [|now destruct k].
    simpl in Hk. injection Hk as <-. f_equal; lia.
  - destruct k as [|k].
    + simpl in Hk. injection Hk as <-. f_equal; lia.
    + simpl in Hk. rewrite (IH k w Hk). f_equal; lia.
Qed.

(** The number of windows cut from offset [s] on. *)
Lemma windows_from_count (s : Z) (ws : list (list Z)) :
  windows_from tokens m o s ws ->
  Z.of_nat (List.length ws)
  = 1 + Z.max 0 ((Z.of_nat (List.length tokens) - s - m + (m - o) - 1)
                 / (m - o)).
Proof.
  induction 1 as [s Hs He | s ws Hs He Hrest IH].
  - cbn [List.length].
    assert ((Z.of_nat (List.length tokens) - s - m + (m - o) - 1) / (m - o) < 1)
      by (apply Z.div_lt_upper_bound; lia).
    lia.
  - cbn [List.length]. rewrite Nat2Z.inj_succ, IH.
    replace (Z.of_nat (List.length tokens) - (s + m - o) - m + (m - o) - 1)
      with (Z.of_nat (List.length tokens) - s - m - 1) by lia.
    replace (Z.of_nat (List.length tokens) - s - m + (m - o) - 1)
      with (Z.of_nat (List.length tokens) - s - m - 1 + 1 * (m - o)) by lia.
    rewrite Z.div_add by lia.
    assert (0 <= (Z.of_nat (List.length tokens) - s - m - 1) / (m - o))
      by (apply Z.div_pos; lia).
    lia.
Qed.

(** The first window followed by every later window without its first
    [o] tokens is the token list from offset [s] on. *)
Lemma windows_from_rebuild (s : Z) (ws : list (list Z)) :
  windows_from tokens m o s ws ->
  exists w rest,
    ws = w :: rest
    /\ w ++ List.concat (map (skipn (Z.to_nat o)) rest)
       = skipn (Z.to_nat s) tokens.
Proof.
  induction 1 as [s Hs He | s ws Hs He Hrest IH].
  - exists (py_slice tokens s (s + m)), []. split; [reflexivity|].
    cbn [map List.concat]. rewrite app_nil_r. apply py_slice_suffix; lia.
  - destruct IH as (w' & rest' & -> & Hjoin).
    exists (py_slice tokens s (s + m)), (w' :: rest').
    split; [reflexivity|]. cbn [map List.concat].
    destruct (windows_from_head _ _ _ Hom _ _ Hrest) as (Hs' & r & Heq).
    injection Heq as Hw' _.
    assert (Hlen : o < Z.of_nat (List.length w')).
    { rewrite Hw', py_slice_window_length by lia. lia. }
    replace (skipn (Z.to_nat o) w' ++ List.concat (map (skipn (Z.to_nat o)) rest'))
      with (skipn (Z.to_nat o)
                  (w' ++ List.concat (map (skipn (Z.to_nat o)) rest'))).
    + rewrite Hjoin, skipn_skipn, py_slice_window by lia.
      replace (Z.to_nat o + Z.to_nat (s + m - o))%nat
        with (Z.to_nat m + Z.to_nat s)%nat by lia.
      rewrite <- skipn_skipn. apply firstn_skipn.
    + rewrite skipn_app.
      replace (Z.to_nat o - List.length w')%nat with 0%nat by lia.
      reflexivity.
Qed.

End WindowShape.

Section SlicerProperties.

Context {ENCODING : Encoding}.

(** X1.  On a token sequence the loop of [split_text_by_tokens]
    finishes exactly when the sequence is empty, or fits one window,
    or the overlap is below the window size; otherwise no amount of
    fuel makes it finish. *)
Theorem slicer_loop_finishes_exactly_when (tokens : list Z) (m o : Z) :
  (Z.of_nat (List.length tokens) = 0
   \/ Z.of_nat (List.length tokens) <= m \/ o < m ->
   exists chunks,
     split_loop (S (List.length tokens)) tokens m o 0 [] = Some chunks)
  /\ (~ (Z.of_nat (List.length tokens) = 0
         \/ Z.of_nat (List.length tokens) <= m \/ o < m) ->
      forall fuel : nat, split_loop fuel tokens m o 0 [] = None).
Proof.
  split.
  - intros Hcase.
    rewrite (split_loop_windows tokens m o (S (List.length tokens)) 0 []).
    assert (Hex : exists ws, token_windows tokens m o = Some ws).
    { destruct (Z.eq_dec (Z.of_nat (List.length tokens)) 0) as [Hz|Hnz].
      - destruct tokens; [|simpl in Hz; lia]. now exists [].
      - destruct (Z.le_gt_cases (Z.of_nat (List.length tokens)) m) as [Hfit|Hbig].
        + exists [tokens]. apply window_loop_fits. lia.
        + apply window_loop_returns; lia. }
    destruct Hex as (ws & Hws). unfold token_windows in Hws.
    rewrite Hws. now eexists.
  - intros Hnot fuel.
    rewrite (split_loop_windows tokens m o fuel 0 []).
    rewrite window_loop_diverges; [reflexivity | lia | lia | lia | lia].
Qed.

(** X2.  A text of at least one and at most [max_tokens] tokens comes
    back as the single chunk [decode(encode(text))], whatever the
    overlap. *)
Theorem slicer_short_text_single_chunk (text : string) (m o : Z) :
  0 < count_tokens text <= m ->
  split_text_by_tokens text m o = Some [decode (encode text)].
Proof.
  intros Hfit. rewrite split_text_by_tokens_windows.
  now rewrite window_loop_fits.
Qed.

(** X3.  With [0 <= overlap < max_tokens] nothing is lost: the first
    window followed by every later window without its first [overlap]
    tokens is the token sequence of the text. *)
Theorem slicer_windows_rebuild_tokens (text : string) (m o : Z) :
  0 <= o < m ->
  exists ws,
    token_windows (encode text) m o = Some ws
    /\ split_text_by_tokens text m o = Some (map decode ws)
    /\ match ws with
       | [] => encode text = []
       | w :: rest =>
           w ++ List.concat (map (skipn (Z.to_nat o)) rest) = encode text
       end.
Proof.
  intros Hom. rewrite split_text_by_tokens_windows.
  destruct (encode text) as [|t tokens] eqn:Henc.
  - exists []. repeat split.
  - destruct (token_windows_from (t :: tokens) m o Hom) as (ws & Hrun & Hws);
      [discriminate|].
    exists ws. rewrite Hrun. split; [reflexivity|]. split; [reflexivity|].
    destruct (windows_from_rebuild _ _ _ Hom _ _ Hws) as (w & rest & -> & Hj).
    exact Hj.
Qed.

(** X4.  With [0 <= overlap < max_tokens] the [k]-th chunk is the
    decoding of [tokens[k*(max_tokens-overlap) : k*(max_tokens-overlap)
    + max_tokens]]. *)
Theorem slicer_kth_window (text : string) (m o : Z) :
  0 <= o < m ->
  exists ws,
    split_text_by_tokens text m o = Some (map decode ws)
    /\ forall (k : nat) (w : list Z),
         nth_error ws k = Some w ->
         w = py_slice (encode text) (Z.of_nat k * (m - o))
                                    (Z.of_nat k * (m - o) + m).
Proof.
  intros Hom. rewrite split_text_by_tokens_windows.
  destruct (encode text) as [|t tokens] eqn:Henc.
  - exists []. split; [reflexivity|]. intros k w Hk. now destruct k.
  - destruct (token_windows_from (t :: tokens) m o Hom) as (ws & Hrun & Hws);
      [discriminate|].
    exists ws. rewrite Hrun. split; [reflexivity|].
    intros k w Hk. rewrite (windows_from_nth _ _ _ Hom _ _ Hws k w Hk) at 1.
    f_equal; lia.
Qed.

(** X5.  With [0 <= overlap < max_tokens] a text of [n > 0] tokens
    gives [1 + max(0, ceil((n - max_tokens) / (max_tokens - overlap)))]
    chunks. *)
Theorem slicer_chunk_count (text : string) (m o : Z) :
  0 <= o < m ->
  0 < count_tokens text ->
  exists chunks,
    split_text_by_tokens text m o = Some chunks
    /\ Z.of_nat (List.length chunks)
       = 1 + Z.max 0 ((count_tokens text - m + (m - o) - 1) / (m - o)).
Proof.
  intros Hom Hpos. rewrite split_text_by_tokens_windows.
  unfold count_tokens in *.
  destruct (token_windows_from (encode text) m o Hom) as (ws & Hrun & Hws).
  { intros Hnil. rewrite Hnil in Hpos. simpl in Hpos. lia. }
  exists (map decode ws). rewrite Hrun. split; [reflexivity|].
  rewrite length_map, (windows_from_count _ _ _ Hom _ _ Hws).
  now replace (Z.of_nat (List.length (encode text)) - 0 - m)
    with (Z.of_nat (List.length (encode text)) - m) by lia.
Qed.

End SlicerProperties.

(** * Further properties of the chunker *)

(** ** Decimal rendering *)

Lemma of_int_inj (a b : Z) : PyStr.of_int a = PyStr.of_int b -> a = b.
Proof.
  unfold PyStr.of_int. intros H. apply DecimalZ.to_int_inj.
  assert (Hnn : forall z, Z.to_int z <> Decimal.Pos Decimal.Nil
                          /\ Z.to_int z <> Decimal.Neg Decimal.Nil).
  { intros [|p|p]; cbn; split; try discriminate; intros E; injection E;
      apply DecimalPos.Unsigned.to_uint_nonnil. }
  destruct (Hnn a) as [Ha1 Ha2]. destruct (Hnn b) as [Hb1 Hb2].
  pose proof (NilZero.isi _ Ha1 Ha2) as Ia.
  pose proof (NilZero.isi _ Hb1 Hb2) as Ib.
  rewrite H in Ia. congruence.
Qed.

Lemma str_app_inv_head (a x y : string) :
  (a ++ x)%string = (a ++ y)%string -> x = y.
Proof.
  induction a as [|c a IH]; cbn [append]; intros H; [exact H|].
  injection H as H. now apply IH.
Qed.

Lemma str_app_nonempty (a b : string) : a <> "" -> (a ++ b)%string <> "".
Proof. destruct a; [congruence | discriminate]. Qed.

Lemma join_nonempty (sep : string) (ps : list string) :
  ps <> [] -> Forall (fun p => p <> "") ps -> PyStr.join sep ps <> "".
Proof.
  intros Hne Hall. destruct ps as [|p rest]; [congruence|].
  inversion Hall as [|? ? Hp _]; subst.
  destruct rest; cbn [PyStr.join]; [exact Hp | now apply str_app_nonempty].
Qed.

Lemma stripped_pieces_nonempty (sep text : string) :
  Forall (fun p => p <> "") (stripped_pieces sep text).
Proof.
  unfold stripped_pieces.
  induction (PyStr.split sep text) as [|p ps IH]; cbn [filter map].
  - constructor.
  - destruct (PyStr.truthy (PyStr.strip p)) eqn:Ht; [|exact IH].
    cbn [map]. constructor; [|exact IH].
    intros E. rewrite E in Ht. discriminate.
Qed.

Section ChunkerProperties.

Context {ENCODING : Encoding}.

Lemma total_tokens_app (a b : list string) :
  total_tokens (a ++ b) = total_tokens a + total_tokens b.
Proof.
  unfold total_tokens.
  induction a as [|p a IH]; cbn [app fold_right]; [reflexivity|].
  rewrite IH. lia.
Qed.

(** *** No empty unit *)

Lemma sentence_loop_nonempty (ss : list string) :
  forall (chunks temp : list string) (t : Z),
    Forall (fun s => s <> "") ss ->
    Forall (fun u => u <> "") chunks ->
    Forall (fun s => s <> "") temp ->
    let '(chunks', temp', _) := fold_left sentence_step ss (chunks, temp, t) in
    Forall (fun u => u <> "") chunks' /\ Forall (fun s => s <> "") temp'.
Proof.
  induction ss as [|s ss IH]; intros chunks temp t Hss Hc Ht.
  - cbn [fold_left]. now split.
  - inversion Hss as [|? ? Hs Hss']; subst. cbn [fold_left].
    unfold sentence_step at 2.
    destruct (t + count_tokens s >? MAX_CHUNK_SIZE).
    + apply IH; [exact Hss' | | now repeat constructor].
      destruct temp as [|x temp]; cbn [nonempty]; [exact Hc|].
      apply Forall_app. split; [exact Hc|].
      constructor; [|constructor]. apply join_nonempty; [discriminate | exact Ht].
    + apply IH; [exact Hss' | exact Hc |].
      apply Forall_app. split; [exact Ht | now repeat constructor].
Qed.

Lemma split_large_paragraph_nonempty (chunks : list string) (p : string) :
  Forall (fun u => u <> "") chunks ->
  Forall (fun u => u <> "") (split_large_paragraph chunks p).
Proof.
  intros Hc. unfold split_large_paragraph.
  assert (Hss : Forall (fun s => s <> "") (sentences p)).
  { unfold sentences. apply Forall_map, Forall_forall. intros s _.
    destruct s; discriminate. }
  pose proof (sentence_loop_nonempty (sentences p) chunks [] 0 Hss Hc
                (Forall_nil _)) as H.
  destruct (fold_left sentence_step (sentences p) (chunks, [], 0))
    as [[chunks' temp'] t']. destruct H as [H1 H2].
  destruct temp' as [|x temp']; cbn [nonempty]; [exact H1|].
  apply Forall_app. split; [exact H1|].
  constructor; [|constructor]. apply join_nonempty; [discriminate | exact H2].
Qed.

Lemma paragraph_loop_nonempty (target_size : Z) (ps : list string) :
  forall (chunks cur : list string) (t : Z),
    Forall (fun p => p <> "") ps ->
    Forall (fun u => u <> "") chunks ->
    Forall (fun p => p <> "") cur ->
    let '(chunks', cur', _) :=
      fold_left (paragraph_step target_size) ps (chunks, cur, t) in
    Forall (fun u => u <> "") chunks' /\ Forall (fun p => p <> "") cur'.
Proof.
  induction ps as [|p ps IH]; intros chunks cur t Hps Hc Hcur.
  - cbn [fold_left]. now split.
  - inversion Hps as [|? ? Hp Hps']; subst. cbn [fold_left].
    assert (Hflush : Forall (fun u => u <> "")
                            (chunks ++ [PyStr.join NLNL cur])
                     \/ cur = []).
    { destruct cur as [|x cur]; [now right|]. left.
      apply Forall_app. split; [exact Hc|].
      constructor; [|constructor]. apply join_nonempty; [discriminate | exact Hcur]. }
    unfold paragraph_step at 2.
    destruct (count_tokens p >? MAX_CHUNK_SIZE).
    + destruct cur as [|x cur]; cbn [nonempty].
      * apply IH; [exact Hps' | | constructor].
        now apply split_large_paragraph_nonempty.
      * destruct Hflush as [Hf|]; [|discriminate].
        apply IH; [exact Hps' | | constructor].
        now apply split_large_paragraph_nonempty.
    + destruct ((t + count_tokens p >? target_size) && nonempty cur) eqn:Hcond.
      * apply andb_prop in Hcond as [_ Hn].
        destruct Hflush as [Hf|E]; [|subst cur; discriminate].
        apply IH; [exact Hps' | exact Hf | now repeat constructor].
      * apply IH; [exact Hps' | exact Hc |].
        apply Forall_app. split; [exact Hcur | now repeat constructor].
Qed.

Lemma chunk_by_paragraphs_nonempty (text : string) (target_size : Z) :
  Forall (fun u => u <> "") (chunk_by_paragraphs text target_size).
Proof.
  unfold chunk_by_paragraphs.
  pose proof (paragraph_loop_nonempty target_size (paragraphs text) [] [] 0
                (stripped_pieces_nonempty NLNL text)
                (Forall_nil _) (Forall_nil _)) as H.
  destruct (fold_left (paragraph_step target_size) (paragraphs text) ([], [], 0))
    as [[chunks cur] t]. destruct H as [H1 H2].
  destruct cur as [|x cur]; cbn [nonempty]; [exact H1|].
  apply Forall_app. split; [exact H1|].
  constructor; [|constructor]. apply join_nonempty; [discriminate | exact H2].
Qed.

(** Properties of every piece carry over to the final chunks. *)
Lemma pieces_forall (P : string -> Prop) (units : list string)
  (pieces : list (list string)) :
  Forall2 unit_pieces units pieces ->
  (forall u, In u units -> count_tokens u <= MAX_CHUNK_SIZE -> P u) ->
  (forall w : list Z,
      0 < Z.of_nat (List.length w) <= TARGET_CHUNK_SIZE -> P (decode w)) ->
  Forall P (List.concat pieces).
Proof.
  intros Hall Hkept Hsliced.
  induction Hall as [|u ps units pieces Hu _ IH]; cbn [List.concat].
  - constructor.
  - apply Forall_app. split.
    + destruct Hu as [Hfit | ws Hbig Hrun Htwo Hlen].
      * constructor; [|constructor]. apply Hkept; [now left | exact Hfit].
      * apply Forall_map. eapply Forall_impl; [|exact Hlen].
        intros w Hw. now apply Hsliced.
    + apply IH. intros u' Hin. apply Hkept. now right.
Qed.

(** X6.  Every unit returned by [chunk_by_paragraphs] is a non-empty
    string, for every text and every target size. *)
Theorem chunk_by_paragraphs_units_nonempty (text : string) (target_size : Z) :
  Forall (fun u => u <> "") (chunk_by_paragraphs text target_size).
Proof. apply chunk_by_paragraphs_nonempty. Qed.

(** The pieces of every unit carry a property over to the final
    chunks. *)
Lemma pieces_forall_units (P : string -> Prop) (units : list string)
  (pieces : list (list string)) :
  Forall2 unit_pieces units pieces ->
  (forall u ps, In u units -> unit_pieces u ps -> Forall P ps) ->
  Forall P (List.concat pieces).
Proof.
  intros Hall HP.
  induction Hall as [|u ps units pieces Hu _ IH]; cbn [List.concat].
  - constructor.
  - apply Forall_app. split.
    + apply (HP u ps); [now left | exact Hu].
    + apply IH. intros u' ps' Hin. apply HP. now right.
Qed.

(** X7.  If the tokenizer decodes every non-empty token list to a
    non-empty text, no chunk that [chunk_document] returns has empty
    content. *)
Theorem chunk_contents_nonempty (doc : Document) (cs : list Chunk) :
  (forall w : list Z, w <> [] -> decode w <> "") ->
  chunk_document doc = Some cs ->
  Forall (fun c => content c <> "") cs.
Proof.
  intros Hdec Hcs.
  destruct (chunk_document_returns doc) as (pieces & Hrun & Hall).
  rewrite Hrun in Hcs. injection Hcs as <-.
  apply Forall_map with (f := content) (P := fun s => s <> "").
  rewrite chunk_records_content.
  apply (pieces_forall _ _ _ Hall).
  - intros u Hin _.
    pose proof (chunk_by_paragraphs_nonempty (doc_content doc) TARGET_CHUNK_SIZE) as H.
    rewrite Forall_forall in H. now apply H.
  - intros w Hw. apply Hdec. intros E. subst w. simpl in Hw. lia.
Qed.

(** X8.  Every chunk that [chunk_document] returns either has a
    [token_count] of at most [MAX_CHUNK_SIZE], or its content is the
    decoding of one of the slicer's windows, of 1 to
    [TARGET_CHUNK_SIZE] tokens, cut from a unit that re-measured over
    [MAX_CHUNK_SIZE]. *)
Theorem chunk_is_small_or_window (doc : Document) (cs : list Chunk) :
  chunk_document doc = Some cs ->
  Forall
    (fun c =>
       token_count c <= MAX_CHUNK_SIZE
       \/ exists (u : string) (ws : list (list Z)) (w : list Z),
            In u (chunk_by_paragraphs (doc_content doc) TARGET_CHUNK_SIZE)
            /\ MAX_CHUNK_SIZE < count_tokens u
            /\ token_windows (encode u) TARGET_CHUNK_SIZE OVERLAP_SIZE
               = Some ws
            /\ In w ws
            /\ 0 < Z.of_nat (List.length w) <= TARGET_CHUNK_SIZE
            /\ content c = decode w)
    cs.
Proof.
  intros Hcs.
  destruct (chunk_document_returns doc) as (pieces & Hrun & Hall).
  rewrite Hrun in Hcs. injection Hcs as <-.
  assert (Hc : Forall
    (fun s =>
       count_tokens s <= MAX_CHUNK_SIZE
       \/ exists (u : string) (ws : list (list Z)) (w : list Z),
            In u (chunk_by_paragraphs (doc_content doc) TARGET_CHUNK_SIZE)
            /\ MAX_CHUNK_SIZE < count_tokens u
            /\ token_windows (encode u) TARGET_CHUNK_SIZE OVERLAP_SIZE
               = Some ws
            /\ In w ws
            /\ 0 < Z.of_nat (List.length w) <= TARGET_CHUNK_SIZE
            /\ s = decode w)
    (List.concat pieces)).
  { apply (pieces_forall_units _ _ _ Hall).
    intros u ps Hin [Hfit | ws Hbig Hrunw Htwo Hlen].
    - constructor; [now left | constructor].
    - apply Forall_map, Forall_forall. intros w Hw. right.
      exists u, ws, w. rewrite Forall_forall in Hlen.
      repeat split; try assumption; now apply Hlen. }
  unfold chunk_records. apply Forall_map, Forall_forall.
  intros e He. cbn [token_count content chunk_record].
  rewrite Forall_forall in Hc. apply Hc.
  rewrite <- (enumerate_snd (List.concat pieces)). now apply in_map.
Qed.

(** X9.  The [chunk_id]s of one document are pairwise distinct. *)
Theorem chunk_ids_distinct (doc : Document) :
  exists cs,
    chunk_document doc = Some cs /\ NoDup (map chunk_id cs).
Proof.
  destruct (chunk_document_returns doc) as (pieces & Hrun & _).
  eexists. split; [exact Hrun|].
  unfold chunk_records. rewrite map_map. cbn [chunk_id chunk_record].
  rewrite <- (map_map fst
    (fun z => (doc_id doc ++ "_chunk_" ++ PyStr.of_int z)%string)).
  rewrite enumerate_fst, map_map.
  apply Injective_map_NoDup; [|apply seq_NoDup].
  intros i j H. apply str_app_inv_head in H.
  apply (str_app_inv_head "_chunk_") in H.
  apply of_int_inj in H. lia.
Qed.

(** *** Sizes of the packed groups *)

Lemma spec_greedy_groups_sizes (target_size : Z) :
  forall (ps g : list string) (tot : Z),
    tot = total_tokens g ->
    (g = [] \/ (exists p, g = [p]) \/ tot <= target_size) ->
    Forall (fun grp => total_tokens grp <= target_size \/ exists p, grp = [p])
           (spec_greedy_groups target_size g tot ps).
Proof.
  induction ps as [|p ps IH]; intros g tot Htot Hinv; cbn [spec_greedy_groups].
  - destruct g as [|x g]; cbn [nonempty]; constructor; [|constructor].
    destruct Hinv as [E | [[q E] | Hle]]; [discriminate | right; now exists q |].
    left. lia.
  - destruct (Z.gtb_spec (tot + count_tokens p) target_size) as [Hgt|Hle];
      cbn [andb].
    + destruct g as [|x g]; cbn [nonempty app].
      * apply IH; [|right; left; now exists p].
        subst tot. unfold total_tokens. cbn [fold_right]. lia.
      * constructor.
        -- destruct Hinv as [E | [[q E] | Hle]];
             [discriminate | right; now exists q | left; lia].
        -- apply IH; [|right; left; now exists p].
           unfold total_tokens. cbn [fold_right]. lia.
    + apply IH.
      * rewrite total_tokens_app. subst tot.
        unfold total_tokens. cbn [fold_right]. lia.
      * right. right. lia.
Qed.

(** X11.  When every paragraph counts at most [MAX_CHUNK_SIZE] tokens,
    the units are the joins of consecutive groups of the paragraphs,
    and each group either is a single paragraph or has paragraph
    counts summing to at most the target size. *)
Theorem packed_groups_within_target (text : string) (target_size : Z) :
  Forall (fun p => count_tokens p <= MAX_CHUNK_SIZE) (paragraphs text) ->
  exists groups : list (list string),
    chunk_by_paragraphs text target_size = map (PyStr.join NLNL) groups
    /\ List.concat groups = paragraphs text
    /\ Forall (fun grp => total_tokens grp <= target_size
                          \/ exists p, grp = [p]) groups.
Proof.
  intros Hfit.
  exists (spec_greedy_groups target_size [] 0 (paragraphs text)).
  split; [now apply chunk_by_paragraphs_greedy|].
  split; [apply spec_greedy_groups_concat|].
  apply spec_greedy_groups_sizes; [reflexivity | now left].
Qed.

(** X12.  A non-empty text that is one trimmed paragraph over
    [MAX_CHUNK_SIZE] tokens and contains no period becomes the single unit made of the
    paragraph with a period appended. *)
Theorem oversized_unterminated_paragraph (text : string) (target_size : Z) :
  text <> "" ->
  contains NLNL text = false ->
  contains "." text = false ->
  PyStr.strip text = text ->
  MAX_CHUNK_SIZE < count_tokens text ->
  chunk_by_paragraphs text target_size = [(text ++ ".")%string].
Proof.
  intros Hne Hnl Hdot Hs Hbig.
  destruct (single_paragraph_form text Hnl Hs Hne) as [Hp _].
  unfold chunk_by_paragraphs. rewrite Hp. cbn [fold_left].
  unfold paragraph_step.
  destruct (Z.gtb_spec (count_tokens text) MAX_CHUNK_SIZE) as [_|]; [|lia].
  cbn [nonempty]. rewrite (unterminated_paragraph_unit [] text Hdot Hs Hne).
  reflexivity.
Qed.

End ChunkerProperties.

(** * Properties of [process_all_documents] *)

(** ** Where a chunk id ends *)

Lemma mem_char_app (c : ascii) (a b : string) :
  mem_char c (a ++ b) = mem_char c a || mem_char c b.
Proof.
  induction a as [|x a IH]; cbn [append mem_char]; [reflexivity|].
  now rewrite IH, orb_assoc.
Qed.

(** Two strings cut at an underscore that is the last one of each are
    cut at the same place. *)
Lemma split_at_last_underscore (d1 d2 : string) :
  mem_char "_" d1 = false ->
  mem_char "_" d2 = false ->
  forall x y : string,
    (x ++ "_" ++ d1)%string = (y ++ "_" ++ d2)%string -> x = y /\ d1 = d2.
Proof.
  intros H1 H2. induction x as [|c x IH]; intros y H.
  - destruct y as [|c' y]; cbn [append] in H.
    + injection H as H. now split.
    + injection H as Hc H. subst d1.
      rewrite mem_char_app in H1. cbn in H1.
      rewrite orb_true_r in H1. discriminate.
  - destruct y as [|c' y]; cbn [append] in H.
    + injection H as Hc H. subst d2.
      rewrite mem_char_app in H2. cbn in H2.
      rewrite orb_true_r in H2. discriminate.
    + injection H as Hc H. subst c'.
      destruct (IH y H) as [-> ->]. now split.
Qed.

Lemma digits_no_underscore (d : Decimal.uint) :
  mem_char "_" (NilEmpty.string_of_uint d) = false.
Proof. induction d; cbn; auto. Qed.

Lemma of_int_no_underscore (z : Z) : mem_char "_" (PyStr.of_int z) = false.
Proof.
  unfold PyStr.of_int.
  assert (Hu : forall d, mem_char "_" (NilZero.string_of_uint d) = false).
  { intros d. destruct d; try apply digits_no_underscore. reflexivity. }
  destruct (Z.to_int z) as [d|d]; cbn [NilZero.string_of_int mem_char].
  - apply Hu.
  - rewrite Hu. reflexivity.
Qed.

(** The document id can be read back from a chunk id. *)
Lemma chunk_id_determines_document (a b : string) (i j : Z) :
  (a ++ "_chunk_" ++ PyStr.of_int i)%string
  = (b ++ "_chunk_" ++ PyStr.of_int j)%string ->
  a = b /\ i = j.
Proof.
  intros H.
  change (a ++ "_chunk_" ++ PyStr.of_int i)%string
    with (a ++ "_chunk" ++ "_" ++ PyStr.of_int i)%string in H.
  change (b ++ "_chunk_" ++ PyStr.of_int j)%string
    with (b ++ "_chunk" ++ "_" ++ PyStr.of_int j)%string in H.
  rewrite <- (str_app_assoc a "_chunk"), <- (str_app_assoc b "_chunk") in H.
  apply split_at_last_underscore in H; try apply of_int_no_underscore.
  destruct H as [Hab Hij]. split; [|now apply of_int_inj].
  change (a ++ "_chunk")%string with (a ++ "_" ++ "chunk")%string in Hab.
  change (b ++ "_chunk")%string with (b ++ "_" ++ "chunk")%string in Hab.
  now apply split_at_last_underscore in Hab.
Qed.

Lemma sum_token_counts_from (chunks : list Chunk) (a : Z) :
  fold_left (fun acc c => acc + token_count c) chunks a
  = a + sum_token_counts chunks.
Proof.
  unfold sum_token_counts. revert a.
  induction chunks as [|c chunks IH]; intros a; cbn [fold_left]; [lia|].
  rewrite IH, (IH (0 + token_count c)). lia.
Qed.

Lemma sum_token_counts_app (a b : list Chunk) :
  sum_token_counts (a ++ b) = sum_token_counts a + sum_token_counts b.
Proof.
  unfold sum_token_counts at 1. rewrite fold_left_app.
  fold (sum_token_counts a). apply sum_token_counts_from.
Qed.

Section DriverProperties.

Context {ENCODING : Encoding}.

Lemma file_chunks_run (d : Document) :
  chunk_document d = Some (file_chunks (FileLoaded d)).
Proof.
  cbn [file_chunks].
  destruct (chunk_document_returns d) as (pieces & Hrun & _).
  now rewrite Hrun.
Qed.

Lemma process_loop (files : list FileOutcome) :
  forall (all : list Chunk) (tc tt : Z),
    fold_left process_file files (Some (all, tc, tt))
    = Some (all ++ flat_map file_chunks files,
            tc + Z.of_nat (List.length (flat_map file_chunks files)),
            tt + sum_token_counts (flat_map file_chunks files)).
Proof.
  induction files as [|f files IH]; intros all tc tt; cbn [fold_left flat_map].
  - rewrite app_nil_r. cbn. do 2 f_equal; [f_equal|]; lia.
  - destruct f as [|d]; cbn [process_file].
    + rewrite IH. reflexivity.
    + rewrite (file_chunks_run d), IH.
      rewrite length_app, sum_token_counts_app, <- app_assoc.
      do 2 f_equal; [f_equal|]; lia.
Qed.

Lemma file_chunk_ids (d : Document) (c : Chunk) :
  In c (file_chunks (FileLoaded d)) ->
  exists i : Z,
    chunk_id c = (doc_id d ++ "_chunk_" ++ PyStr.of_int i)%string.
Proof.
  cbn [file_chunks].
  destruct (chunk_document_returns d) as (pieces & Hrun & _).
  rewrite Hrun. unfold chunk_records. intros Hin.
  apply in_map_iff in Hin as (e & <- & _). now exists (fst e).
Qed.

Lemma file_chunk_ids_nodup (d : Document) :
  NoDup (map chunk_id (file_chunks (FileLoaded d))).
Proof.
  cbn [file_chunks].
  destruct (chunk_document_returns d) as (pieces & Hrun & _).
  rewrite Hrun. unfold chunk_records. rewrite map_map.
  cbn [chunk_id chunk_record].
  rewrite <- (map_map fst
    (fun z => (doc_id d ++ "_chunk_" ++ PyStr.of_int z)%string)).
  rewrite enumerate_fst, map_map.
  apply Injective_map_NoDup; [|apply seq_NoDup].
  intros i j H. apply chunk_id_determines_document in H. lia.
Qed.

Lemma all_chunk_ids_from_loaded (files : list FileOutcome) (c : Chunk) :
  In c (flat_map file_chunks files) ->
  exists (a : string) (i : Z),
    In a (loaded_ids files)
    /\ chunk_id c = (a ++ "_chunk_" ++ PyStr.of_int i)%string.
Proof.
  induction files as [|f files IH]; cbn [flat_map loaded_ids]; [intros []|].
  intros Hin. apply in_app_or in Hin as [Hin|Hin].
  - destruct f as [|d]; [destruct Hin|].
    destruct (file_chunk_ids d c Hin) as (i & Hi).
    exists (doc_id d), i. split; [|exact Hi]. apply in_or_app. left. now left.
  - destruct (IH Hin) as (a & i & Ha & Hi).
    exists a, i. split; [|exact Hi]. apply in_or_app. now right.
Qed.

(** X13.  A run over at least one file completes; [chunks.json] holds
    the chunks of the loaded documents in file order, a file whose
    processing raises contributes nothing yet is counted as processed,
    and the totals are the number of chunks written and the sum of
    their token counts. *)
Theorem process_all_documents_totals (files : list FileOutcome) :
  files <> [] ->
  exists out,
    process_all_documents (Some files) = Some (Completed out)
    /\ all_chunks_data out = flat_map file_chunks files
    /\ returned out
       = (Z.of_nat (List.length files),
          Z.of_nat (List.length (all_chunks_data out)),
          sum_token_counts (all_chunks_data out))
    /\ index_total_documents out = Z.of_nat (List.length files)
    /\ index_total_chunks out = Z.of_nat (List.length (all_chunks_data out))
    /\ index_total_tokens out = sum_token_counts (all_chunks_data out).
Proof.
  intros Hne. unfold process_all_documents.
  destruct files as [|f files]; [congruence|]. cbn [nonempty].
  rewrite process_loop. cbn [app]. eexists. split; [reflexivity|].
  cbn. repeat split.
Qed.

(** X14.  The average written to [index.json] is 0 when no chunk was
    produced, and otherwise the floor of tokens per chunk: it never
    divides by zero and [avg * chunks <= tokens < (avg + 1) * chunks]. *)
Theorem process_all_documents_average (files : list FileOutcome) :
  files <> [] ->
  exists out,
    process_all_documents (Some files) = Some (Completed out)
    /\ (index_total_chunks out = 0 -> index_avg_tokens_per_chunk out = 0)
    /\ (0 < index_total_chunks out ->
        index_avg_tokens_per_chunk out * index_total_chunks out
        <= index_total_tokens out
        < (index_avg_tokens_per_chunk out + 1) * index_total_chunks out).
Proof.
  intros Hne. unfold process_all_documents.
  destruct files as [|f files]; [congruence|]. cbn [nonempty].
  rewrite process_loop. cbn [app]. eexists. split; [reflexivity|].
  cbn [index_total_chunks index_avg_tokens_per_chunk index_total_tokens].
  set (n := 0 + Z.of_nat (List.length (flat_map file_chunks (f :: files)))).
  set (t := 0 + sum_token_counts (flat_map file_chunks (f :: files))).
  split.
  - intros Hz. rewrite Hz. reflexivity.
  - intros Hpos. destruct (Z.gtb_spec n 0) as [_|]; [|lia].
    pose proof (Z.mul_div_le t n Hpos).
    pose proof (Z.mul_succ_div_gt t n Hpos). lia.
Qed.

(** X15.  When the loaded documents have pairwise distinct ids, the
    chunk ids written to [chunks.json] are pairwise distinct. *)
Theorem process_all_documents_ids_distinct (files : list FileOutcome) :
  files <> [] ->
  NoDup (loaded_ids files) ->
  exists out,
    process_all_documents (Some files) = Some (Completed out)
    /\ NoDup (map chunk_id (all_chunks_data out)).
Proof.
  intros Hne Hids.
  assert (Hnd : NoDup (map chunk_id (flat_map file_chunks files))).
  { clear Hne. induction files as [|f files IH]; cbn [flat_map map];
      [constructor|].
    destruct f as [|d].
    - cbn [file_chunks app]. apply IH. exact Hids.
    - cbn [loaded_ids flat_map app] in Hids.
      apply NoDup_cons_iff in Hids as [Hfresh Hrest].
      rewrite map_app. apply NoDup_app.
      + apply file_chunk_ids_nodup.
      + apply IH. exact Hrest.
      + intros x Hx Hy.
        apply in_map_iff in Hx as (c & <- & Hc).
        apply in_map_iff in Hy as (c' & Heq & Hc').
        destruct (file_chunk_ids d c Hc) as (i & Hi).
        destruct (all_chunk_ids_from_loaded files c' Hc') as (a & j & Ha & Hj).
        rewrite Hi, Hj in Heq.
        apply chunk_id_determines_document in Heq as [-> _].
        apply Hfresh. exact Ha. }
  unfold process_all_documents.
  destruct files as [|f files]; [congruence|]. cbn [nonempty].
  rewrite process_loop. cbn [app]. eexists. split; [reflexivity|].
  exact Hnd.
Qed.

End DriverProperties.

(** * Properties of the consumers of the chunk records *)

(** ** Batches *)

Lemma firstn_app_skipn {A : Type} (a b : nat) (l : list A) :
  firstn a l ++ firstn b (skipn a l) = firstn (a + b) l.
Proof.
  revert l. induction a as [|a IH]; intros l; [reflexivity|].
  destruct l as [|x l]; cbn [firstn skipn Nat.add app].
  - now rewrite firstn_nil.
  - now rewrite IH.
Qed.

Lemma py_range_batch_offsets (n : Z) :
  0 <= n ->
  py_range 0 n BATCH_SIZE
  = map (fun k => 0 + Z.of_nat k * BATCH_SIZE)
        (seq 0 (Z.to_nat ((n + 99) / 100))).
Proof.
  intros Hn. unfold py_range, BATCH_SIZE. do 2 f_equal.
  destruct (Z.ltb_spec 0 n); Z.div_mod_to_equations; lia.
Qed.

Lemma slices_prefix {A : Type} (l : list A) (j : nat) :
  List.concat (map (fun i => py_slice l i (i + BATCH_SIZE))
                   (map (fun k => 0 + Z.of_nat k * BATCH_SIZE) (seq 0 j)))
  = firstn (j * 100) l.
Proof.
  induction j as [|j IH]; [reflexivity|].
  rewrite seq_S, !map_app, concat_app, IH. cbn [map List.concat Nat.add].
  rewrite app_nil_r, py_slice_window by (unfold BATCH_SIZE; lia).
  unfold BATCH_SIZE.
  replace (Z.to_nat (0 + Z.of_nat j * 100)) with (j * 100)%nat by lia.
  replace (Z.to_nat 100) with 100%nat by lia.
  rewrite firstn_app_skipn. f_equal. lia.
Qed.

Lemma batches_concat {A : Type} (l : list A) : List.concat (batches l) = l.
Proof.
  unfold batches. rewrite py_range_batch_offsets by lia.
  rewrite slices_prefix. apply firstn_all2.
  Z.div_mod_to_equations. lia.
Qed.

Lemma batches_sizes {A : Type} (l : list A) :
  Forall (fun b => 0 < Z.of_nat (List.length b) <= BATCH_SIZE) (batches l).
Proof.
  unfold batches. rewrite py_range_batch_offsets by lia.
  rewrite map_map. apply Forall_map, Forall_forall.
  intros k Hk. apply in_seq in Hk.
  rewrite py_slice_window_length; unfold BATCH_SIZE;
    Z.div_mod_to_equations; lia.
Qed.

Lemma batches_count {A : Type} (l : list A) :
  Z.of_nat (List.length (batches l))
  = (Z.of_nat (List.length l) + 99) / 100.
Proof.
  unfold batches. rewrite py_range_batch_offsets by lia.
  rewrite !length_map, length_seq.
  Z.div_mod_to_equations. lia.
Qed.

(** X16.  The batches both consumers cut,
    [l[i:i+100] for i in range(0, len(l), 100)], concatenate to the
    list, are each non-empty and of at most 100 elements, and number
    [ceil(len(l) / 100)]. *)
Theorem batches_partition {A : Type} (l : list A) :
  List.concat (batches l) = l
  /\ Forall (fun b => 0 < Z.of_nat (List.length b) <= BATCH_SIZE) (batches l)
  /\ Z.of_nat (List.length (batches l))
     = (Z.of_nat (List.length l) + 99) / 100.
Proof.
  split; [apply batches_concat|]. split; [apply batches_sizes|].
  apply batches_count.
Qed.

(** ** [process_chunks] *)

Section EmbeddingProperties.

Variable Vec : Type.
Variable generate : Z -> list string -> option (list Vec).

Hypothesis generate_one_per_text :
  forall (i : Z) (texts : list string),
    exists es, generate i texts = Some es
               /\ List.length es = List.length texts.

Lemma combine_loop (batch : list Chunk) :
  forall (es : list Vec) (data : list (EmbeddingRecord Vec)) (tot : Z),
    List.length es = List.length batch ->
    exists fresh,
      fold_left (combine_step Vec) (combine batch es) (data, tot)
      = (data ++ fresh, tot + sum_token_counts batch)
      /\ map (fun r => (er_chunk_id Vec r, er_content Vec r,
                        er_token_count Vec r, er_metadata Vec r)) fresh
         = map (fun c => (chunk_id c, content c, token_count c, metadata c))
               batch.
Proof.
  induction batch as [|c batch IH]; intros es data tot Hlen.
  - exists []. cbn. rewrite app_nil_r. split; [f_equal; lia | reflexivity].
  - destruct es as [|e es]; [discriminate|]. injection Hlen as Hlen.
    cbn [combine fold_left combine_step].
    destruct (IH es
                (data ++ [mkEmbeddingRecord Vec (chunk_id c) e (content c)
                            (token_count c) (metadata c)])
                (tot + token_count c) Hlen) as (fresh & Hrun & Hview).
    exists (mkEmbeddingRecord Vec (chunk_id c) e (content c)
              (token_count c) (metadata c) :: fresh). split.
    + rewrite Hrun, <- app_assoc. cbn [app]. f_equal.
      change (c :: batch) with ([c] ++ batch).
      rewrite sum_token_counts_app. cbn. lia.
    + cbn [map]. now rewrite Hview.
Qed.

Lemma embed_loop (chunks : list Chunk) (offsets : list Z) :
  forall (data : list (EmbeddingRecord Vec)) (tot : Z),
    exists fresh,
      fold_left (embed_batch Vec generate chunks) offsets (Some (data, tot))
      = Some (data ++ fresh,
              tot + sum_token_counts
                      (List.concat
                         (map (fun i => py_slice chunks i (i + BATCH_SIZE))
                              offsets)))
      /\ map (fun r => (er_chunk_id Vec r, er_content Vec r,
                        er_token_count Vec r, er_metadata Vec r)) fresh
         = map (fun c => (chunk_id c, content c, token_count c, metadata c))
               (List.concat
                  (map (fun i => py_slice chunks i (i + BATCH_SIZE)) offsets)).
Proof.
  induction offsets as [|i offsets IH]; intros data tot.
  - exists []. cbn. rewrite app_nil_r. split; [do 2 f_equal; lia | reflexivity].
  - cbn [fold_left embed_batch map List.concat].
    destruct (generate_one_per_text i
                (map content (py_slice chunks i (i + BATCH_SIZE))))
      as (es & -> & Hlen).
    rewrite length_map in Hlen.
    destruct (combine_loop _ es data tot Hlen) as (f1 & -> & Hv1).
    destruct (IH (data ++ f1)
                 (tot + sum_token_counts (py_slice chunks i (i + BATCH_SIZE))))
      as (f2 & -> & Hv2).
    exists (f1 ++ f2). split.
    + rewrite <- app_assoc, sum_token_counts_app. do 2 f_equal. lia.
    + now rewrite !map_app, Hv1, Hv2.
Qed.

(** X17.  When every call for a batch returns one embedding per text,
    [process_chunks] yields one record per chunk, in order, carrying
    the chunk's id, content, token count and metadata, and its token
    total is the sum of the chunks' token counts. *)
Theorem process_chunks_one_record_per_chunk (chunks : list Chunk) :
  exists data,
    process_chunks Vec generate chunks = Some (data, sum_token_counts chunks)
    /\ map (er_chunk_id Vec) data = map chunk_id chunks
    /\ map (er_content Vec) data = map content chunks
    /\ map (er_token_count Vec) data = map token_count chunks
    /\ map (er_metadata Vec) data = map metadata chunks.
Proof.
  unfold process_chunks.
  destruct (embed_loop chunks
              (py_range 0 (Z.of_nat (List.length chunks)) BATCH_SIZE) [] 0)
    as (data & Hrun & Hview).
  fold (batches chunks) in Hrun, Hview.
  rewrite batches_concat in Hrun, Hview.
  exists data. split; [exact Hrun|].
  repeat split.
  - apply (f_equal (map (fun t => fst (fst (fst t))))) in Hview.
    now rewrite !map_map in Hview.
  - apply (f_equal (map (fun t => snd (fst (fst t))))) in Hview.
    now rewrite !map_map in Hview.
  - apply (f_equal (map (fun t => snd (fst t)))) in Hview.
    now rewrite !map_map in Hview.
  - apply (f_equal (map (fun t => snd t))) in Hview.
    now rewrite !map_map in Hview.
Qed.

End EmbeddingProperties.

(** ** [generate_embeddings_batch] *)

(** X18.  Started with [retry_count = 0], [generate_embeddings_batch]
    makes at most [MAX_RETRIES + 1 = 4] calls: it returns the
    embeddings of the first call that succeeds, having made no call
    after it, and raises after the fourth failure. *)
Theorem generate_embeddings_batch_attempts (Vec : Type)
  (api_call : nat -> option (list Vec)) (fuel calls : nat) :
  (4 <= fuel)%nat ->
  exists out,
    generate_embeddings_batch Vec api_call fuel 0 calls = Some out
    /\ match out with
       | BatchReturns _ embeddings made =>
           exists k : nat,
             (k <= 3)%nat
             /\ made = (calls + k + 1)%nat
             /\ api_call (calls + k)%nat = Some embeddings
             /\ forall j : nat, (j < k)%nat -> api_call (calls + j)%nat = None
       | BatchRaises _ made =>
           made = (calls + 4)%nat
           /\ forall j : nat, (j <= 3)%nat -> api_call (calls + j)%nat = None
       end.
Proof.
  intros Hfuel.
  destruct fuel as [|[|[|[|fuel]]]]; try lia.
  cbn [generate_embeddings_batch].
  change (0 <? MAX_RETRIES) with true.
  change (0 + 1 <? MAX_RETRIES) with true.
  change (0 + 1 + 1 <? MAX_RETRIES) with true.
  change (0 + 1 + 1 + 1 <? MAX_RETRIES) with false.
  cbv iota.
  destruct (api_call calls) as [e0|] eqn:H0.
  { eexists. split; [reflexivity|]. exists 0%nat.
    rewrite !Nat.add_0_r. repeat split; [lia | lia | exact H0 | intros j Hj; lia]. }
  destruct (api_call (S calls)) as [e1|] eqn:H1.
  { eexists. split; [reflexivity|]. exists 1%nat.
    replace (calls + 1)%nat with (S calls) by lia.
    repeat split; [lia | lia | exact H1 |].
    intros j Hj. replace j with 0%nat by lia. now rewrite Nat.add_0_r. }
  destruct (api_call (S (S calls))) as [e2|] eqn:H2.
  { eexists. split; [reflexivity|]. exists 2%nat.
    replace (calls + 2)%nat with (S (S calls)) by lia.
    repeat split; [lia | lia | exact H2 |].
    intros j Hj. destruct j as [|[|j]]; [| |lia].
    - now rewrite Nat.add_0_r.
    - now replace (calls + 1)%nat with (S calls) by lia. }
  destruct (api_call (S (S (S calls)))) as [e3|] eqn:H3.
  { eexists. split; [reflexivity|]. exists 3%nat.
    replace (calls + 3)%nat with (S (S (S calls))) by lia.
    repeat split; [lia | lia | exact H3 |].
    intros j Hj. destruct j as [|[|[|j]]]; [| | |lia].
    - now rewrite Nat.add_0_r.
    - now replace (calls + 1)%nat with (S calls) by lia.
    - now replace (calls + 2)%nat with (S (S calls)) by lia. }
  eexists. split; [reflexivity|]. split; [lia|].
  intros j Hj. destruct j as [|[|[|[|j]]]]; [| | | |lia].
  - now rewrite Nat.add_0_r.
  - now replace (calls + 1)%nat with (S calls) by lia.
  - now replace (calls + 2)%nat with (S (S calls)) by lia.
  - now replace (calls + 3)%nat with (S (S (S calls))) by lia.
Qed.

(** ** [prepare_vectors] *)

Lemma string_of_list_ascii_app (a b : list ascii) :
  string_of_list_ascii (a ++ b)
  = (string_of_list_ascii a ++ string_of_list_ascii b)%string.
Proof. induction a as [|c a IH]; cbn; [reflexivity | now rewrite IH]. Qed.

Lemma string_of_list_ascii_length (l : list ascii) :
  String.length (string_of_list_ascii l) = List.length l.
Proof. induction l as [|c l IH]; cbn; [reflexivity | now rewrite IH]. Qed.

Lemma list_ascii_of_string_length (s : string) :
  List.length (list_ascii_of_string s) = String.length s.
Proof. induction s as [|c s IH]; cbn; [reflexivity | now rewrite IH]. Qed.

Lemma str_prefix_firstn (n : Z) (s : string) :
  0 <= n ->
  str_prefix n s
  = string_of_list_ascii (firstn (Z.to_nat n) (list_ascii_of_string s)).
Proof.
  intros Hn. unfold str_prefix. rewrite py_slice_nonneg by lia.
  now replace (n - 0) with n by lia.
Qed.

Lemma str_prefix_length (n : Z) (s : string) :
  0 <= n ->
  String.length (str_prefix n s) = Nat.min (Z.to_nat n) (String.length s).
Proof.
  intros Hn. rewrite str_prefix_firstn by exact Hn.
  now rewrite string_of_list_ascii_length, length_firstn,
    list_ascii_of_string_length.
Qed.

Lemma str_prefix_is_prefix (n : Z) (s : string) :
  0 <= n -> exists rest, s = (str_prefix n s ++ rest)%string.
Proof.
  intros Hn. rewrite str_prefix_firstn by exact Hn.
  exists (string_of_list_ascii (skipn (Z.to_nat n) (list_ascii_of_string s))).
  now rewrite <- string_of_list_ascii_app, firstn_skipn,
    string_of_list_ascii_of_string.
Qed.

Lemma str_prefix_short (n : Z) (s : string) :
  (String.length s <= Z.to_nat n)%nat -> 0 <= n -> str_prefix n s = s.
Proof.
  intros Hlen Hn. rewrite str_prefix_firstn by exact Hn.
  rewrite firstn_all2 by (now rewrite list_ascii_of_string_length).
  apply string_of_list_ascii_of_string.
Qed.

(** X19.  [prepare_vectors] gives one vector per record, in order,
    under the record's chunk id and with its embedding; the content in
    the metadata is the first 1000 characters of the chunk's content
    (the whole content when it has at most 1000), and the tags string
    has at most 500 characters. *)
Theorem prepare_vectors_truncates (Vec : Type)
  (embeddings_data : list (EmbeddingRecord Vec)) :
  Forall2
    (fun item v =>
       fst (fst v) = er_chunk_id Vec item
       /\ snd (fst v) = er_embedding Vec item
       /\ (exists rest,
             er_content Vec item = (vm_content (snd v) ++ rest)%string)
       /\ String.length (vm_content (snd v))
          = Nat.min 1000 (String.length (er_content Vec item))
       /\ ((String.length (er_content Vec item) <= 1000)%nat ->
           vm_content (snd v) = er_content Vec item)
       /\ (String.length (vm_tags (snd v)) <= 500)%nat)
    embeddings_data (prepare_vectors Vec embeddings_data).
Proof.
  unfold prepare_vectors.
  induction embeddings_data as [|item items IH]; cbn [map]; constructor;
    [|exact IH].
  unfold prepare_vector. cbn [fst snd vm_content vm_tags].
  split; [reflexivity|]. split; [reflexivity|].
  split; [apply str_prefix_is_prefix; lia|].
  split; [rewrite str_prefix_length by lia; f_equal|].
  split; [intros Hlen; apply str_prefix_short; lia|].
  rewrite str_prefix_length by lia. lia.
Qed.

(** ** [upload_vectors] *)

Section UploadProperties.

Variable Vec : Type.
Variable upsert : Z -> list (string * Vec * VectorMetadata) -> bool.

Lemma upload_loop (vectors : list (string * Vec * VectorMetadata))
  (offsets : list Z) :
  (forall i b, upsert i b = true) ->
  forall total : Z,
    fold_left (upload_batch Vec upsert vectors) offsets (Some total)
    = Some (total
            + Z.of_nat (List.length
                (List.concat
                   (map (fun i => py_slice vectors i (i + BATCH_SIZE))
                        offsets)))).
Proof.
  intros Hok. induction offsets as [|i offsets IH]; intros total.
  - cbn. f_equal. lia.
  - cbn [fold_left upload_batch map List.concat].
    rewrite Hok, IH, length_app. f_equal. lia.
Qed.

Lemma upload_loop_raised (vectors : list (string * Vec * VectorMetadata))
  (offsets : list Z) :
  fold_left (upload_batch Vec upsert vectors) offsets None = None.
Proof. induction offsets as [|i offsets IH]; [reflexivity | exact IH]. Qed.

(** X20.  When no upsert raises, [upload_vectors] returns the number
    of vectors it was given. *)
Theorem upload_vectors_counts_all
  (vectors : list (string * Vec * VectorMetadata)) :
  (forall i b, upsert i b = true) ->
  upload_vectors Vec upsert vectors = Some (Z.of_nat (List.length vectors)).
Proof.
  intros Hok. unfold upload_vectors. rewrite upload_loop by exact Hok.
  fold (batches vectors). now rewrite batches_concat.
Qed.

Lemma upload_loop_fails (vectors : list (string * Vec * VectorMetadata))
  (offsets : list Z) (i : Z) :
  In i offsets ->
  upsert i (py_slice vectors i (i + BATCH_SIZE)) = false ->
  forall st, fold_left (upload_batch Vec upsert vectors) offsets st = None.
Proof.
  intros Hin Hfail. induction offsets as [|k offsets IH]; [destruct Hin|].
  intros st. cbn [fold_left]. destruct Hin as [->|Hin].
  - destruct st as [total|]; cbn [upload_batch].
    + rewrite Hfail. apply upload_loop_raised.
    + apply upload_loop_raised.
  - now apply IH.
Qed.

(** X21.  When the upsert of any batch raises, [upload_vectors]
    raises: no count is returned, whatever the other upserts do. *)
Theorem upload_vectors_any_batch_raises
  (vectors : list (string * Vec * VectorMetadata)) (i : Z) :
  In i (py_range 0 (Z.of_nat (List.length vectors)) BATCH_SIZE) ->
  upsert i (py_slice vectors i (i + BATCH_SIZE)) = false ->
  upload_vectors Vec upsert vectors = None.
Proof.
  intros Hin Hfail. unfold upload_vectors.
  now apply (upload_loop_fails vectors _ i).
Qed.

End UploadProperties.

(** * Concrete runs of the further properties *)

Lemma char_decode_nonempty (w : list Z) : w <> [] -> char_decode w <> "".
Proof. destruct w as [|t w]; [congruence | discriminate]. Qed.

Lemma char_reencode_length (w : list Z) :
  List.length (char_encode (char_decode w)) = List.length w.
Proof.
  unfold char_encode, char_decode.
  now rewrite list_ascii_of_string_of_list_ascii, !length_map.
Qed.

Section MoreRuns.

#[local] Existing Instance char_encoding.

(** X2, instance: five tokens in a window of ten, overlap fifty. *)
Lemma slicer_short_text_witness :
  split_text_by_tokens "hello" 10 50 = Some [decode (encode "hello")].
Proof.
  assert (H : 0 < count_tokens "hello" <= 10)
    by (vm_compute; split; [reflexivity | discriminate]).
  exact (slicer_short_text_single_chunk "hello" 10 50 H).
Defined.

(** X3, instance. *)
Lemma slicer_rebuild_witness :
  exists ws,
    token_windows (encode "abcdefg") 3 1 = Some ws
    /\ split_text_by_tokens "abcdefg" 3 1 = Some (map decode ws)
    /\ match ws with
       | [] => encode "abcdefg" = []
       | w :: rest =>
           w ++ List.concat (map (skipn (Z.to_nat 1)) rest) = encode "abcdefg"
       end.
Proof.
  assert (H : 0 <= 1 < 3) by lia.
  exact (slicer_windows_rebuild_tokens "abcdefg" 3 1 H).
Defined.

(** X4, instance. *)
Lemma slicer_kth_window_witness :
  exists ws,
    split_text_by_tokens "abcdefg" 3 1 = Some (map decode ws)
    /\ forall (k : nat) (w : list Z),
         nth_error ws k = Some w ->
         w = py_slice (encode "abcdefg") (Z.of_nat k * (3 - 1))
                                         (Z.of_nat k * (3 - 1) + 3).
Proof.
  assert (H : 0 <= 1 < 3) by lia.
  exact (slicer_kth_window "abcdefg" 3 1 H).
Defined.

(** X5, instance: seven tokens, windows of 3 overlapping by 1, three
    chunks. *)
Lemma slicer_chunk_count_witness :
  exists chunks,
    split_text_by_tokens "abcdefg" 3 1 = Some chunks
    /\ Z.of_nat (List.length chunks)
       = 1 + Z.max 0 ((count_tokens "abcdefg" - 3 + (3 - 1) - 1) / (3 - 1)).
Proof.
  assert (H1 : 0 <= 1 < 3) by lia.
  assert (H2 : 0 < count_tokens "abcdefg") by (vm_compute; reflexivity).
  exact (slicer_chunk_count "abcdefg" 3 1 H1 H2).
Defined.

(** X7, instance: the chunks of the 1400-letter paragraph. *)
Lemma chunk_contents_nonempty_witness :
  exists cs,
    chunk_document (sample_doc long_paragraph) = Some cs
    /\ Forall (fun c => content c <> "") cs.
Proof.
  eexists. split; [vm_compute; reflexivity|].
  apply (chunk_contents_nonempty (ENCODING := char_encoding)
           (sample_doc long_paragraph) _ char_decode_nonempty).
  vm_compute. reflexivity.
Defined.

(** X8, instance. *)
Lemma chunk_is_small_or_window_witness :
  exists cs,
    chunk_document (sample_doc long_paragraph) = Some cs
    /\ Forall
         (fun c =>
            token_count c <= MAX_CHUNK_SIZE
            \/ exists (u : string) (ws : list (list Z)) (w : list Z),
                 In u (chunk_by_paragraphs
                         (doc_content (sample_doc long_paragraph))
                         TARGET_CHUNK_SIZE)
                 /\ MAX_CHUNK_SIZE < count_tokens u
                 /\ token_windows (encode u) TARGET_CHUNK_SIZE OVERLAP_SIZE
                    = Some ws
                 /\ In w ws
                 /\ 0 < Z.of_nat (List.length w) <= TARGET_CHUNK_SIZE
                 /\ content c = decode w)
         cs.
Proof.
  eexists. split; [vm_compute; reflexivity|].
  apply (chunk_is_small_or_window (ENCODING := char_encoding)
           (sample_doc long_paragraph)).
  vm_compute. reflexivity.
Defined.

(** X11, instance. *)
Lemma packed_groups_witness :
  exists groups : list (list string),
    chunk_by_paragraphs two_paragraphs 750 = map (PyStr.join NLNL) groups
    /\ List.concat groups = paragraphs two_paragraphs
    /\ Forall (fun grp => total_tokens grp <= 750 \/ exists p, grp = [p])
              groups.
Proof.
  assert (Hp : paragraphs two_paragraphs
               = [PyStr.repeat_str "a" 400; PyStr.repeat_str "b" 400])
    by (vm_compute; reflexivity).
  assert (H : Forall (fun p => count_tokens p <= MAX_CHUNK_SIZE)
                     (paragraphs two_paragraphs)).
  { rewrite Hp. repeat constructor; vm_compute; discriminate. }
  exact (packed_groups_within_target two_paragraphs 750 H).
Defined.

(** X12, instance: 1400 letters and no period. *)
Lemma oversized_unterminated_witness :
  chunk_by_paragraphs long_paragraph 750 = [(long_paragraph ++ ".")%string].
Proof.
  assert (H0 : long_paragraph <> "") by (vm_compute; discriminate).
  assert (H1 : contains NLNL long_paragraph = false)
    by (vm_compute; reflexivity).
  assert (H2 : contains "." long_paragraph = false)
    by (vm_compute; reflexivity).
  assert (H3 : PyStr.strip long_paragraph = long_paragraph)
    by (vm_compute; reflexivity).
  assert (H4 : MAX_CHUNK_SIZE < count_tokens long_paragraph)
    by (vm_compute; reflexivity).
  exact (oversized_unterminated_paragraph long_paragraph 750 H0 H1 H2 H3 H4).
Defined.

Lemma sample_files_nonempty : sample_files <> [].
Proof. discriminate. Qed.

(** X13, instance: three files, one of which raises. *)
Lemma process_totals_witness :
  exists out,
    process_all_documents (Some sample_files) = Some (Completed out)
    /\ all_chunks_data out = flat_map file_chunks sample_files
    /\ returned out
       = (Z.of_nat (List.length sample_files),
          Z.of_nat (List.length (all_chunks_data out)),
          sum_token_counts (all_chunks_data out))
    /\ index_total_documents out = Z.of_nat (List.length sample_files)
    /\ index_total_chunks out = Z.of_nat (List.length (all_chunks_data out))
    /\ index_total_tokens out = sum_token_counts (all_chunks_data out).
Proof.
  exact (process_all_documents_totals sample_files sample_files_nonempty).
Defined.

Example process_sample_files_returns :
  option_map (fun r => match r with
                       | Exit1 => None
                       | Completed out => Some (returned out)
                       end)
             (process_all_documents (Some sample_files))
  = Some (Some (3, 2, 17)).
Proof. vm_compute. reflexivity. Qed.

(** X14, instance. *)
Lemma process_average_witness :
  exists out,
    process_all_documents (Some sample_files) = Some (Completed out)
    /\ (index_total_chunks out = 0 -> index_avg_tokens_per_chunk out = 0)
    /\ (0 < index_total_chunks out ->
        index_avg_tokens_per_chunk out * index_total_chunks out
        <= index_total_tokens out
        < (index_avg_tokens_per_chunk out + 1) * index_total_chunks out).
Proof.
  exact (process_all_documents_average sample_files sample_files_nonempty).
Defined.

(** X15, instance. *)
Lemma process_ids_distinct_witness :
  exists out,
    process_all_documents (Some sample_files) = Some (Completed out)
    /\ NoDup (map chunk_id (all_chunks_data out)).
Proof.
  assert (H : NoDup (loaded_ids sample_files)).
  { cbn. repeat constructor; cbn; intuition discriminate. }
  exact (process_all_documents_ids_distinct sample_files
           sample_files_nonempty H).
Defined.

(** X17, instance. *)
Lemma process_chunks_witness :
  exists data,
    process_chunks nat stub_generate
      (chunk_records (sample_doc hello_world) ["hello"; "world"])
    = Some (data, sum_token_counts
                    (chunk_records (sample_doc hello_world) ["hello"; "world"]))
    /\ map (er_chunk_id nat) data
       = map chunk_id (chunk_records (sample_doc hello_world) ["hello"; "world"])
    /\ map (er_content nat) data
       = map content (chunk_records (sample_doc hello_world) ["hello"; "world"])
    /\ map (er_token_count nat) data
       = map token_count
             (chunk_records (sample_doc hello_world) ["hello"; "world"])
    /\ map (er_metadata nat) data
       = map metadata (chunk_records (sample_doc hello_world) ["hello"; "world"]).
Proof.
  assert (H : forall (i : Z) (texts : list string),
             exists es, stub_generate i texts = Some es
                        /\ List.length es = List.length texts).
  { intros i texts. eexists. split; [reflexivity | apply length_map]. }
  exact (process_chunks_one_record_per_chunk nat stub_generate H
           (chunk_records (sample_doc hello_world) ["hello"; "world"])).
Defined.

(** X18, instance: two failures, then success on the third call. *)
Lemma generate_embeddings_batch_witness :
  exists out,
    generate_embeddings_batch nat flaky_api 4 0 0 = Some out
    /\ match out with
       | BatchReturns _ embeddings made =>
           exists k : nat,
             (k <= 3)%nat
             /\ made = (0 + k + 1)%nat
             /\ flaky_api (0 + k)%nat = Some embeddings
             /\ forall j : nat, (j < k)%nat -> flaky_api (0 + j)%nat = None
       | BatchRaises _ made =>
           made = (0 + 4)%nat
           /\ forall j : nat, (j <= 3)%nat -> flaky_api (0 + j)%nat = None
       end.
Proof.
  assert (H : (4 <= 4)%nat) by lia.
  exact (generate_embeddings_batch_attempts nat flaky_api 4 0 H).
Defined.

Example flaky_api_third_call :
  generate_embeddings_batch nat flaky_api 4 0 0
  = Some (BatchReturns nat [O] 3).
Proof. reflexivity. Qed.

(** X20, instance. *)
Lemma upload_vectors_witness :
  upload_vectors nat (fun _ _ => true) (prepare_vectors nat sample_records)
  = Some (Z.of_nat (List.length (prepare_vectors nat sample_records))).
Proof.
  exact (upload_vectors_counts_all nat (fun _ _ => true)
           (prepare_vectors nat sample_records) (fun _ _ => eq_refl)).
Defined.

(** X21, instance. *)
Lemma upload_vectors_raises_witness :
  upload_vectors nat (fun _ _ => false) (prepare_vectors nat sample_records)
  = None.
Proof.
  assert (H : In 0 (py_range 0
                      (Z.of_nat (List.length (prepare_vectors nat sample_records)))
                      BATCH_SIZE))
    by (vm_compute; left; reflexivity).
  exact (upload_vectors_any_batch_raises nat (fun _ _ => false)
           (prepare_vectors nat sample_records) 0 H eq_refl).
Defined.

End MoreRuns.
